(** * Metadata normalisation of imaginary ([exif.go])

    A shallow embedding of the EXIF normaliser: rational parsing, the
    scalar formatters, the enumeration decoders, the GPS decoder and the
    assembler [ParseEXIFFromBimg], together with the parts of Go's
    standard library they are written against ([strings], [strconv],
    [math], [fmt], [encoding/json]).

    Go values are modelled as follows.
    - [string] is a sequence of bytes: Rocq's [string] of 8-bit [ascii].
    - [int] is [Z]: the normaliser copies, compares and masks the integers
      of the raw record and does no arithmetic on them, so no wrap-around
      arises; [Z.land] is the bitwise and of two's complement.
    - [float64] is [spec_float] at precision 53 and maximal exponent 1024,
      with the IEEE 754 operations of [SpecFloat] (round to nearest even).
    - [(T, error)] results are [result T].
    - [any] is a tagged union of the dynamic types the code stores in it. *)

From Stdlib Require Import ZArith Bool Lia Ascii String.
From Stdlib Require Import Floats.SpecFloat.
From stdpp Require Import base list strings.

Local Open Scope string_scope.
Local Open Scope Z_scope.

(** ** Errors *)

(** [errors.New] values carry their message; the errors of [strconv] are
    [*NumError] values with the function name, the input and the cause. *)
Inductive strconv_cause := ErrSyntax | ErrRange.

Inductive error :=
| errors_New (msg : string)
| NumError (func input : string) (cause : strconv_cause).

Inductive result (A : Type) :=
| Ok (v : A)
| Err (e : error).
Arguments Ok {A} v.
Arguments Err {A} e.

Definition is_Err {A} (r : result A) : bool :=
  match r with Ok _ => false | Err _ => true end.

(** ** Package [strings] *)

Module Strings.

Definition bytes (l : list nat) : string :=
  string_of_list_ascii (map ascii_of_nat l).

(** The UTF-8 encodings of the runes for which [unicode.IsSpace] holds:
    the six ASCII ones, U+0085, U+00A0, U+1680, U+2000..U+200A, U+2028,
    U+2029, U+202F, U+205F and U+3000. *)
Definition White_Space : list (list ascii) :=
  map (fun l => map ascii_of_nat l)
    [ [9]; [10]; [11]; [12]; [13]; [32];
      [194; 133]; [194; 160]; [225; 154; 128];
      [226; 128; 128]; [226; 128; 129]; [226; 128; 130]; [226; 128; 131];
      [226; 128; 132]; [226; 128; 133]; [226; 128; 134]; [226; 128; 135];
      [226; 128; 136]; [226; 128; 137]; [226; 128; 138];
      [226; 128; 168]; [226; 128; 169]; [226; 128; 175];
      [226; 129; 159]; [227; 128; 128] ]%nat.

Fixpoint strip_prefix (p l : list ascii) : option (list ascii) :=
  match p, l with
  | [], _ => Some l
  | a :: p', b :: l' => if Ascii.eqb a b then strip_prefix p' l' else None
  | _ :: _, [] => None
  end.

(** The input without its first rune, when that rune is white space. *)
Fixpoint strip_space (pats : list (list ascii)) (l : list ascii)
  : option (list ascii) :=
  match pats with
  | [] => None
  | p :: pats' =>
      match strip_prefix p l with
      | Some r => Some r
      | None => strip_space pats' l
      end
  end.

Fixpoint trim_left (pats : list (list ascii)) (fuel : nat) (l : list ascii)
  : list ascii :=
  match fuel with
  | O => l
  | S fuel' =>
      match strip_space pats l with
      | Some r => trim_left pats fuel' r
      | None => l
      end
  end.

Definition TrimLeftSpace (l : list ascii) : list ascii :=
  trim_left White_Space (length l) l.

(** Trailing runes are matched on the reversed bytes. *)
Definition TrimRightSpace (l : list ascii) : list ascii :=
  rev (trim_left (map (@rev ascii) White_Space) (length l) (rev l)).

(** [strings.TrimSpace]: all leading and trailing white space removed. *)
Definition TrimSpace (s : string) : string :=
  string_of_list_ascii (TrimRightSpace (TrimLeftSpace (list_ascii_of_string s))).

Definition cons_head (c : ascii) (l : list string) : list string :=
  match l with
  | h :: t => String c h :: t
  | [] => [String c ""]
  end.

(** [strings.Split(s, sep)] for a one-byte separator, as at both call
    sites: the pieces between the separators, never an empty list. *)
Fixpoint Split (s : string) (sep : ascii) : list string :=
  match s with
  | "" => [""]
  | String c s' =>
      if Ascii.eqb c sep then "" :: Split s' sep
      else cons_head c (Split s' sep)
  end.

(** [strings.SplitN(s, sep, n)] for a one-byte separator and [n >= 0]:
    at most [n] pieces, the last one being the unsplit remainder. *)
Fixpoint SplitN (s : string) (sep : ascii) (n : nat) {struct s} : list string :=
  match n with
  | O => []
  | S O => [s]
  | S (S _ as n') =>
      match s with
      | "" => [""]
      | String c s' =>
          if Ascii.eqb c sep then "" :: SplitN s' sep n'
          else cons_head c (SplitN s' sep n)
      end
  end.

(** [strings.Count(s, sep)] for a one-byte separator. *)
Fixpoint Count (s : string) (sep : ascii) : nat :=
  match s with
  | "" => O
  | String c s' => ((if Ascii.eqb c sep then 1 else 0) + Count s' sep)%nat
  end.

Definition in_cutset (c : ascii) (cutset : string) : bool :=
  existsb (Ascii.eqb c) (list_ascii_of_string cutset).

Fixpoint drop_while_in (cutset : string) (l : list ascii) : list ascii :=
  match l with
  | [] => []
  | c :: l' => if in_cutset c cutset then drop_while_in cutset l' else l
  end.

(** [strings.TrimRight(s, cutset)] for an ASCII cutset. *)
Definition TrimRight (s cutset : string) : string :=
  string_of_list_ascii (rev (drop_while_in cutset (rev (list_ascii_of_string s)))).

End Strings.

(** ** [float64] *)

Definition float64 := spec_float.

Module F64.

Definition prec : Z := 53.
Definition emax : Z := 1024.

Definition add : float64 -> float64 -> float64 := SFadd prec emax.
Definition mul : float64 -> float64 -> float64 := SFmul prec emax.
Definition div : float64 -> float64 -> float64 := SFdiv prec emax.
Definition eqb : float64 -> float64 -> bool := SFeqb.
Definition ltb : float64 -> float64 -> bool := SFltb.
Definition leb : float64 -> float64 -> bool := SFleb.
(** [x >= y] *)
Definition geb (x y : float64) : bool := SFleb y x.

(** The nearest [float64] to [(-1)^neg * num / den]. *)
Definition of_ratio (neg : bool) (num den : positive) : float64 :=
  let '(q, e, l) := SFdiv_core_binary prec emax (Zpos num) 0 (Zpos den) 0 in
  binary_round_aux prec emax neg q e l.

(** Conversion of an integer, and of an integer constant. *)
Definition of_Z (z : Z) : float64 := binary_normalize prec emax z 0 false.

(** A decimal constant [m * 10^-k] of the source, such as [0.3]. *)
Definition of_decimal (m : positive) (k : nat) : float64 :=
  of_ratio false m (Pos.of_nat (10 ^ k)).

Definition zero : float64 := S754_zero false.

(** [float64 -> int] conversion: truncation towards zero.  Outside the
    range of [int64], and on NaN, the Go specification leaves the result
    to the implementation; amd64 yields the smallest [int64]. *)
Definition to_int (x : float64) : Z :=
  match x with
  | S754_zero _ => 0
  | S754_finite s m e =>
      let a := if 0 <=? e then Zpos m * 2 ^ e else Zpos m / 2 ^ (- e) in
      let v := if s then - a else a in
      if (- 2 ^ 63 <=? v) && (v <? 2 ^ 63) then v else - 2 ^ 63
  | _ => - 2 ^ 63
  end.

End F64.

Declare Scope f64_scope.
Delimit Scope f64_scope with f64.
Infix "+" := F64.add : f64_scope.
Infix "*" := F64.mul : f64_scope.
Infix "/" := F64.div : f64_scope.
Infix "==" := F64.eqb (at level 70) : f64_scope.
Infix ">=" := F64.geb : f64_scope.
Infix "<" := F64.ltb : f64_scope.

(** ** Package [math] *)

Module Math.

(** [math.Round]: the nearest integer, halves away from zero; zeros,
    infinities and NaN are returned unchanged. *)
Definition Round (x : float64) : float64 :=
  match x with
  | S754_finite s m e =>
      if 0 <=? e then x
      else
        let d := 2 ^ (- e) in
        let q := Zpos m / d in
        let r := Zpos m mod d in
        let n := if d <=? 2 * r then q + 1 else q in
        if n =? 0 then S754_zero s
        else binary_normalize F64.prec F64.emax (if s then - n else n) 0 false
  | _ => x
  end.

(** The loop of [math.Pow] that raises [x1 * 2^xe] to the integer power
    [i] by repeated squaring, the result being [a1 * 2^ae]. *)
Fixpoint pow_loop (i : positive) (a1 : float64) (ae : Z) (x1 : float64) (xe : Z)
  : float64 * Z :=
  if (xe <? - 2 ^ 12) || (2 ^ 12 <? xe) then (a1, ae + xe)
  else
    let square k a1 ae :=
      let x1 := (x1 * x1)%f64 in
      let xe := 2 * xe in
      if (x1 < F64.of_decimal 5 1)%f64
      then k a1 ae (x1 + x1)%f64 (xe - 1)
      else k a1 ae x1 xe in
    match i with
    | xH => ((a1 * x1)%f64, ae + xe)
    | xO i' => square (pow_loop i') a1 ae
    | xI i' => square (pow_loop i') (a1 * x1)%f64 (ae + xe)
    end.

(** [math.Pow(x, float64(n))] for a finite [x > 1] and an index [n >= 0],
    as [parseGPSCoordinate] calls it with [x = 60]. *)
Definition Pow (x : float64) (n : N) : float64 :=
  match n with
  | N0 => F64.of_Z 1
  | Npos 1 => x
  | Npos i =>
      let '(x1, xe) := SFfrexp F64.prec F64.emax x in
      let '(a1, ae) := pow_loop i (F64.of_Z 1) 0 x1 xe in
      SFldexp F64.prec F64.emax a1 ae
  end.

End Math.

(** ** Package [strconv] *)

Module Strconv.

Definition is_digit (c : ascii) : bool :=
  let n := N_of_ascii c in ((48 <=? n) && (n <=? 57))%N.

Definition digit_val (c : ascii) : Z := Z.of_N (N_of_ascii c) - 48.

(** [lower(c) = c | ('x' - 'X')] *)
Definition lower (c : ascii) : ascii :=
  ascii_of_N (N.lor (N_of_ascii c) 32).

Definition is_hex_letter (c : ascii) : bool :=
  let n := N_of_ascii (lower c) in ((97 <=? n) && (n <=? 102))%N.

Definition hex_letter_val (c : ascii) : Z :=
  Z.of_N (N_of_ascii (lower c)) - 97 + 10.

(** *** Integers *)

Fixpoint digits_val (acc : Z) (l : list ascii) : option Z :=
  match l with
  | [] => Some acc
  | c :: l' => if is_digit c then digits_val (10 * acc + digit_val c) l' else None
  end.

(** [strconv.Atoi] on a 64-bit platform: an optional sign and at least
    one decimal digit; [ErrSyntax] otherwise, [ErrRange] outside [int]. *)
Definition Atoi (s : string) : result Z :=
  let syntax := Err (NumError "Atoi" s ErrSyntax) in
  let '(neg, ds) :=
    match list_ascii_of_string s with
    | "-"%char :: ds => (true, ds)
    | "+"%char :: ds => (false, ds)
    | ds => (false, ds)
    end in
  match ds with
  | [] => syntax
  | _ =>
      match digits_val 0 ds with
      | None => syntax
      | Some un =>
          let n := if neg then - un else un in
          if (- 2 ^ 63 <=? n) && (n <? 2 ^ 63) then Ok n
          else Err (NumError "Atoi" s ErrRange)
      end
  end.

Fixpoint pos_digits (fuel : nat) (n : Z) (acc : list ascii) : list ascii :=
  match fuel with
  | O => acc
  | S fuel' =>
      let acc' := ascii_of_N (Z.to_N (48 + n mod 10)) :: acc in
      if n <? 10 then acc' else pos_digits fuel' (n / 10) acc'
  end.

(** The decimal digits of [n >= 0]. *)
Definition utoa (n : Z) : list ascii :=
  pos_digits (S (Z.to_nat (Z.log2 n))) n [].

(** [strconv.Itoa], which is also what the verb [%d] prints. *)
Definition Itoa (n : Z) : string :=
  string_of_list_ascii (if n <? 0 then "-"%char :: utoa (- n) else utoa n).

(** *** Printing floats *)

(** [round(num / den)] with halves to the even neighbour. *)
Definition div_half_even (num den : Z) : Z :=
  let q := num / den in
  let r := num mod den in
  match 2 * r ?= den with
  | Lt => q
  | Gt => q + 1
  | Eq => if Z.even q then q else q + 1
  end.

Definition pad_zeros (n : nat) (l : list ascii) : list ascii :=
  repeat "0"%char (n - length l) ++ l.

(** [strconv.FormatFloat(v, 'f', prec, 64)] for [prec >= 0]: the exact
    value of [v] rounded to [prec] decimals, halves to even, printed
    with a sign only when the sign bit is set. *)
Definition FormatFloat_f (v : float64) (prec : nat) : string :=
  let fixed (s : bool) (scaled : Z) :=
    let ds := pad_zeros (S prec) (utoa scaled) in
    let int_part := take (length ds - prec) ds in
    let frac := drop (length ds - prec) ds in
    string_of_list_ascii
      ((if s then ["-"%char] else []) ++ int_part ++
       match prec with O => [] | _ => "."%char :: frac end) in
  match v with
  | S754_nan => "NaN"
  | S754_infinity false => "+Inf"
  | S754_infinity true => "-Inf"
  | S754_zero s => fixed s 0
  | S754_finite s m e =>
      let p10 := 10 ^ Z.of_nat prec in
      fixed s (if 0 <=? e then Zpos m * 2 ^ e * p10
               else div_half_even (Zpos m * p10) (2 ^ (- e)))
  end.

(** *** Parsing floats *)

Definition to_lower (c : ascii) : ascii :=
  let n := N_of_ascii c in
  if ((65 <=? n) && (n <=? 90))%N then ascii_of_N (n + 32) else c.

Fixpoint commonPrefixLenIgnoreCase (s prefix : list ascii) : nat :=
  match s, prefix with
  | c :: s', p :: prefix' =>
      if Ascii.eqb (to_lower c) p then S (commonPrefixLenIgnoreCase s' prefix')
      else O
  | _, _ => O
  end.

(** [special]: the infinities and NaN, with the number of bytes read. *)
Definition special (s : list ascii) : option (float64 * nat) :=
  let inf (neg : bool) (nsign : nat) (s : list ascii) :=
    let n := commonPrefixLenIgnoreCase s (list_ascii_of_string "infinity") in
    let n := if Nat.ltb 3 n && Nat.ltb n 8 then 3%nat else n in
    if Nat.eqb n 3 || Nat.eqb n 8 then Some (S754_infinity neg, (nsign + n)%nat)
    else None in
  match s with
  | "+"%char :: s' => inf false 1%nat s'
  | "-"%char :: s' => inf true 1%nat s'
  | "i"%char :: _ | "I"%char :: _ => inf false 0%nat s
  | "n"%char :: _ | "N"%char :: _ =>
      if Nat.eqb (commonPrefixLenIgnoreCase s (list_ascii_of_string "nan")) 3
      then Some (S754_nan, 3%nat) else None
  | _ => None
  end.

Inductive saw := saw_start | saw_digit | saw_underscore | saw_other.

Fixpoint underscore_loop (hex : bool) (sw : saw) (l : list ascii) : bool :=
  match l with
  | [] => match sw with saw_underscore => false | _ => true end
  | c :: l' =>
      if is_digit c || (hex && is_hex_letter c) then underscore_loop hex saw_digit l'
      else if Ascii.eqb c "_" then
        match sw with
        | saw_digit => underscore_loop hex saw_underscore l'
        | _ => false
        end
      else
        match sw with
        | saw_underscore => false
        | _ => underscore_loop hex saw_other l'
        end
  end.

(** [underscoreOK]: underscores only between digits, or after a base
    prefix. *)
Definition underscoreOK (s : list ascii) : bool :=
  let s := match s with
           | "-"%char :: s' | "+"%char :: s' => s'
           | _ => s
           end in
  match s with
  | "0"%char :: b :: s' =>
      if existsb (Ascii.eqb (lower b)) ["b"; "o"; "x"]%char
      then underscore_loop (Ascii.eqb (lower b) "x") saw_digit s'
      else underscore_loop false saw_start s
  | _ => underscore_loop false saw_start s
  end.

(** What [readFloat] has read of the mantissa. *)
Record mantissa := {
  sawdot : bool;
  sawdigits : bool;
  underscores : bool;
  digits : Z;      (* all the digits read, as one integer *)
  nfrac : Z        (* how many of them follow the point *)
}.

Fixpoint mantissa_loop (hex : bool) (st : mantissa) (l : list ascii)
  : mantissa * list ascii :=
  let base := if hex then 16 else 10 in
  let push d :=
    {| sawdot := sawdot st; sawdigits := true; underscores := underscores st;
       digits := base * digits st + d;
       nfrac := if sawdot st then nfrac st + 1 else nfrac st |} in
  match l with
  | [] => (st, [])
  | c :: l' =>
      if Ascii.eqb c "_" then
        mantissa_loop hex
          {| sawdot := sawdot st; sawdigits := sawdigits st; underscores := true;
             digits := digits st; nfrac := nfrac st |} l'
      else if Ascii.eqb c "." then
        if sawdot st then (st, l)
        else
          mantissa_loop hex
            {| sawdot := true; sawdigits := sawdigits st;
               underscores := underscores st;
               digits := digits st; nfrac := nfrac st |} l'
      else if is_digit c then mantissa_loop hex (push (digit_val c)) l'
      else if hex && is_hex_letter c then mantissa_loop hex (push (hex_letter_val c)) l'
      else (st, l)
  end.

(** The digits of the exponent; the accumulator stops growing at 10000. *)
Fixpoint exponent_loop (e : Z) (us : bool) (l : list ascii)
  : Z * bool * list ascii :=
  match l with
  | c :: l' =>
      if Ascii.eqb c "_" then exponent_loop e true l'
      else if is_digit c then
        exponent_loop (if e <? 10000 then e * 10 + digit_val c else e) us l'
      else (e, us, l)
  | [] => (e, us, [])
  end.

(** A number read by [readFloat]: [(-1)^neg * digits * base^exp], the
    base being 2 for a hexadecimal mantissa and 10 otherwise. *)
Record number := {
  neg : bool;
  hex : bool;
  mant : Z;
  exp : Z;
  rest : list ascii
}.

Definition readFloat (s : list ascii) : option number :=
  let '(neg, l) :=
    match s with
    | "+"%char :: l => (false, l)
    | "-"%char :: l => (true, l)
    | _ => (false, s)
    end in
  let '(hex, l) :=
    match l with
    | "0"%char :: x :: ((_ :: _) as l') =>
        if Ascii.eqb (lower x) "x" then (true, l') else (false, l)
    | _ => (false, l)
    end in
  let '(m, l) :=
    mantissa_loop hex
      {| sawdot := false; sawdigits := false; underscores := false;
         digits := 0; nfrac := 0 |} l in
  if negb (sawdigits m) then None
  else
    let finish (dexp : Z) (us : bool) (l : list ascii) :=
      let read := take (length s - length l) s in
      if us && negb (underscoreOK read) then None
      else
        Some {| neg := neg; hex := hex; mant := digits m;
                exp := dexp - (if hex then 4 * nfrac m else nfrac m);
                rest := l |} in
    let exponent (l : list ascii) :=
      let '(esign, l) :=
        match l with
        | "+"%char :: l' => (1, l')
        | "-"%char :: l' => (-1, l')
        | _ => (1, l)
        end in
      match l with
      | c :: _ =>
          if is_digit c then
            let '(e, us, l) := exponent_loop 0 (underscores m) l in
            finish (e * esign) us l
          else None
      | [] => None
      end in
    match l with
    | c :: l' =>
        if Ascii.eqb (lower c) (if hex then "p" else "e") then exponent l'
        else if hex then None
        else finish 0 (underscores m) l
    | [] => if hex then None else finish 0 (underscores m) l
    end.

(** [strconv.ParseFloat(s, 64)]: the nearest [float64] to the decimal
    or hexadecimal number [s], [ErrSyntax] unless all of [s] is a
    number, [ErrRange] when the nearest value is an infinity. *)
Definition ParseFloat (s : string) : result float64 :=
  let l := list_ascii_of_string s in
  let syntax := Err (NumError "ParseFloat" s ErrSyntax) in
  match special l with
  | Some (f, n) => if Nat.eqb n (length l) then Ok f else syntax
  | None =>
      match readFloat l with
      | None => syntax
      | Some x =>
          match rest x with
          | _ :: _ => syntax
          | [] =>
              let f :=
                match mant x with
                | Zpos m =>
                    if hex x then binary_round F64.prec F64.emax (neg x) m (exp x)
                    else if 0 <=? exp x
                    then F64.of_ratio (neg x) (m * Z.to_pos (10 ^ exp x)) 1
                    else F64.of_ratio (neg x) m (Z.to_pos (10 ^ (- exp x)))
                | _ => S754_zero (neg x)
                end in
              match f with
              | S754_infinity _ => Err (NumError "ParseFloat" s ErrRange)
              | _ => Ok f
              end
          end
      end
  end.

End Strconv.

(** ** Package [fmt] *)

Module Fmt.

(** [fmt.Sprintf("1/%d", den)] *)
Definition Sprintf_1_over (den : Z) : string := "1/" ++ Strconv.Itoa den.

End Fmt.

(** * The normaliser

    [log.Printf] writes a line to the process log and has no influence on
    what the functions return; the log is left out of the model. *)

(** A Go result pair [(float64, error)], [None] being the [nil] error. *)
Definition float64_error : Type := float64 * option error.

(** [parts[i]].  Go panics when [i] is out of range; the code below indexes
    the result of [SplitN] only where it has an element (see
    [SplitN_length_pos]), and the default is never observed. *)
Definition index (parts : list string) (i : nat) : string := nth i parts "".

(** The three errors that [parseEXIFRational] creates with [errors.New]. *)
Definition more_than_1_slash : error :=
  errors_New "invalid value: more than 1 slash found".
Definition numerator_is_empty : error :=
  errors_New "invalid value: numerator is empty".
Definition denumerator_is_0 : error :=
  errors_New "invalid value: denumerator is 0".

(** Parse a rational number (represented as a fractional in a string) and
    returns a float value. *)
Definition parseEXIFRational (v : string) : float64_error :=
  let v := Strings.TrimSpace v in
  if String.eqb v "" then (F64.zero, None)
  else
    let parts := Strings.SplitN v "/" 3 in
    if Nat.ltb 2 (length parts) then
      (F64.zero, Some more_than_1_slash)
    else if String.eqb (index parts 0) "" then
      (F64.zero, Some numerator_is_empty)
    else
      match Strconv.ParseFloat (index parts 0) with
      | Err err => (F64.zero, Some err)
      | Ok num =>
          if Nat.eqb (length parts) 1 || (num == F64.zero)%f64 then (num, None)
          else
            match Strconv.ParseFloat (index parts 1) with
            | Err err => (F64.zero, Some err)
            | Ok den =>
                if (den == F64.zero)%f64 then (F64.zero, Some denumerator_is_0)
                else ((num / den)%f64, None)
            end
      end.

(** Like parseEXIFRational, but logs errors and returns a single value. *)
Definition parseEXIFRationalOrLogError (v : string) : float64 :=
  fst (parseEXIFRational v).

(** Formats a float with at most n decimal digits.  The body passes the
    constant 2 to [FormatFloat] and never reads [n]. *)
Definition formatFloat (v : float64) (n : Z) : string :=
  Strings.TrimRight (Strings.TrimRight (Strconv.FormatFloat_f v 2) "0") ".".

(** Formats a rational so it's in a clearer format for humans. *)
Definition formatHumanRational (val : string) : string :=
  let f := parseEXIFRationalOrLogError val in
  if (f == F64.zero)%f64 then "0"
  else if (f >= F64.of_decimal 3 1)%f64 then formatFloat f 2
  else
    let den := F64.to_int (F64.of_decimal 5 1 + F64.of_Z 1 / f)%f64 in
    Fmt.Sprintf_1_over den.

(** Formats the values for XResolution and YResolution. *)
Definition formatResolution (resolution : string) (resolutionUnit : Z) : string :=
  let v := formatFloat (parseEXIFRationalOrLogError resolution) 2 in
  match resolutionUnit with
  | 2 => v ++ " ppi"
  | 3 => v ++ " ppcm"
  | _ => v
  end.

(** The loop of [parseGPSCoordinate] over [parts[i:]], [res] being the sum
    so far; the first component that does not parse ends it with 0. *)
Fixpoint parseGPSCoordinate_loop (i : N) (parts : list string) (res : float64)
  : float64 :=
  match parts with
  | [] => res
  | p :: parts' =>
      match parseEXIFRational p with
      | (_, Some err) => F64.zero
      | (r, None) =>
          parseGPSCoordinate_loop (N.succ i) parts'
            (res + r / Math.Pow (F64.of_Z 60) i)%f64
      end
  end.

(** Parses a GPS coordinate (latitude or longitude) converting from the
    degrees, minutes, and seconds, into a decimal. *)
Definition parseGPSCoordinate (v : string) : float64 :=
  parseGPSCoordinate_loop 0 (Strings.Split v " ") F64.zero.

(** ** Package [time], as far as [formatDateTime] uses it *)

Module Time.

Record civil := {
  year : Z; month : Z; day : Z; hour : Z; minute : Z; second : Z
}.

Definition isDigit (l : list ascii) (i : nat) : bool :=
  match l !! i with Some c => Strconv.is_digit c | None => false end.

(** [getnum]: one or two digits; exactly two when [fixed]. *)
Definition getnum (l : list ascii) (fixed : bool) : option (Z * list ascii) :=
  match l with
  | a :: l' =>
      if Strconv.is_digit a then
        match l' with
        | b :: l'' =>
            if Strconv.is_digit b
            then Some (Strconv.digit_val a * 10 + Strconv.digit_val b, l'')
            else if fixed then None else Some (Strconv.digit_val a, l')
        | [] => if fixed then None else Some (Strconv.digit_val a, l')
        end
      else None
  | [] => None
  end.

Fixpoint cutspace (l : list ascii) : list ascii :=
  match l with
  | " "%char :: l' => cutspace l'
  | _ => l
  end.

(** [skip(value, ":")] and [skip(value, " ")]: a space of the layout
    stands for any run of spaces of the value. *)
Definition skip_colon (l : list ascii) : option (list ascii) :=
  match l with
  | ":"%char :: l' => Some l'
  | _ => None
  end.

Definition skip_space (l : list ascii) : option (list ascii) :=
  match l with
  | [] => Some []
  | " "%char :: _ => Some (cutspace l)
  | _ => None
  end.

Fixpoint drop_digits (l : list ascii) : list ascii :=
  match l with
  | c :: l' => if Strconv.is_digit c then drop_digits l' else l
  | [] => []
  end.

(** A fractional second of the value that the layout does not have. *)
Definition skip_fraction (l : list ascii) : list ascii :=
  match l with
  | c :: d :: l' =>
      if (Ascii.eqb c "." || Ascii.eqb c ",") && Strconv.is_digit d
      then drop_digits l' else l
  | _ => l
  end.

Definition isLeap (y : Z) : bool :=
  (y mod 4 =? 0) && (negb (y mod 100 =? 0) || (y mod 400 =? 0)).

Definition daysIn (m y : Z) : Z :=
  if (m =? 2) && isLeap y then 29
  else nth (Z.to_nat (m - 1)) [31; 28; 31; 30; 31; 30; 31; 31; 30; 31; 30; 31] 0.

Definition test (b : bool) : option unit := if b then Some tt else None.

(** [time.Parse("2006:01:02 15:04:05", value)] *)
Definition Parse (value : string) : option civil :=
  let l := list_ascii_of_string value in
  _ ← test (Nat.leb 4 (length l) && forallb Strconv.is_digit (take 4 l));
  y ← Strconv.digits_val 0 (take 4 l);
  l ← skip_colon (drop 4 l);
  '(mo, l) ← getnum l true;
  l ← skip_colon l;
  '(d, l) ← getnum l true;
  l ← skip_space l;
  '(h, l) ← getnum l false;
  l ← skip_colon l;
  '(mi, l) ← getnum l true;
  l ← skip_colon l;
  '(sec, l) ← getnum l true;
  _ ← test (sec <? 60);
  _ ← test (Nat.eqb (length (skip_fraction l)) 0);
  _ ← test ((1 <=? mo) && (mo <=? 12) && (h <? 24) && (mi <? 60));
  _ ← test ((1 <=? d) && (d <=? daysIn mo y));
  Some {| year := y; month := mo; day := d; hour := h; minute := mi; second := sec |}.

Definition zero_padded (width : nat) (n : Z) : string :=
  string_of_list_ascii (Strconv.pad_zeros width (Strconv.utoa n)).

(** [t.Format("2006-01-02T15:04:05")] *)
Definition Format (t : civil) : string :=
  zero_padded 4 (year t) ++ "-" ++ zero_padded 2 (month t) ++ "-" ++
  zero_padded 2 (day t) ++ "T" ++ zero_padded 2 (hour t) ++ ":" ++
  zero_padded 2 (minute t) ++ ":" ++ zero_padded 2 (second t).

End Time.

(** Formats the DateTime values. *)
Definition formatDateTime (orig : string) : string :=
  match Time.Parse orig with
  | None => ""
  | Some t => Time.Format t
  end.

(** ** Records *)

(** The dynamic values the code stores in fields of type [any]. *)
Inductive any :=
| nil
| any_string (s : string)
| any_int (n : Z)
| any_bool (b : bool).

(** [bimg.EXIF], the raw record: the fields that the normaliser reads. *)
Module bimg.
Record EXIF := {
  Make : string;
  Model : string;
  Orientation : Z;
  XResolution : string;
  YResolution : string;
  ResolutionUnit : Z;
  Software : string;
  Datetime : string;
  YCbCrPositioning : Z;
  Compression : Z;
  ExposureTime : string;
  FNumber : string;
  ExposureProgram : Z;
  ISOSpeedRatings : Z;
  ExifVersion : string;
  DateTimeOriginal : string;
  DateTimeDigitized : string;
  ComponentsConfiguration : string;
  ShutterSpeedValue : string;
  ApertureValue : string;
  BrightnessValue : string;
  ExposureBiasValue : string;
  MeteringMode : Z;
  Flash : Z;
  FocalLength : string;
  SubjectArea : string;
  ColorSpace : Z;
  PixelXDimension : Z;
  PixelYDimension : Z;
  SensingMethod : Z;
  SceneType : string;
  ExposureMode : Z;
  FocalLengthIn35mmFilm : Z;
  SceneCaptureType : Z;
  GPSLatitudeRef : string;
  GPSLatitude : string;
  GPSLongitudeRef : string;
  GPSLongitude : string;
  GPSAltitudeRef : string;
  GPSAltitude : string;
  GPSSpeedRef : string;
  GPSSpeed : string;
  GPSImgDirectionRef : string;
  GPSImgDirection : string
}.
End bimg.

Record EXIFGPS := {
  Latitude : float64;
  Longitude : float64;
  Altitude : string;
  Speed : string;
  Direction : float64;
  DirectionRef : string
}.

(** The normalised record.  A [nil] slice and a [nil] pointer are [None]. *)
Record EXIF := {
  Make : string;
  Model : string;
  Orientation : Z;
  Software : string;
  YCbCrPositioning : Z;
  ExifVersion : string;
  ISO : Z;
  ComponentsConfiguration : string;
  FocalLengthIn35mmFilm : Z;
  ExifImageWidth : Z;
  ExifImageHeight : Z;
  XResolution : string;
  YResolution : string;
  DateTime : string;
  DateTimeOriginal : string;
  DateTimeDigitized : string;
  FNumber : string;
  ExposureTime : string;
  ExposureProgram : any;
  ShutterSpeedValue : string;
  ApertureValue : string;
  BrightnessValue : string;
  ExposureCompensation : string;
  MeteringMode : any;
  Compression : any;
  Flash : bool;
  FlashMode : any;
  FocalLength : string;
  SubjectArea : option (list Z);
  ColorSpace : any;
  SensingMethod : any;
  ExposureMode : any;
  WhiteBalance : any;
  SceneType : string;
  SceneCaptureType : Z;
  GPS : option EXIFGPS
}.

(** ** The GPS decoder *)

Definition is_one_of (s : string) (cases : list string) : bool :=
  existsb (String.eqb s) cases.

Definition minus_one : float64 := F64.of_Z (-1).

(** [math.Round(x*100_000) / 100_000] *)
Definition round5 (x : float64) : float64 :=
  (Math.Round (x * F64.of_Z 100000) / F64.of_Z 100000)%f64.

(** The altitude string of [populateGPSFields]. *)
Definition gpsAltitude (s : bimg.EXIF) : string :=
  if String.eqb (bimg.GPSAltitude s) "" then ""
  else
    match parseEXIFRational (bimg.GPSAltitude s) with
    | (alt, None) =>
        let alt := if String.eqb (bimg.GPSAltitudeRef s) "1"
                   then (alt * minus_one)%f64 else alt in
        formatFloat alt 0 ++ " m"
    | (_, Some _) => ""
    end.

(** The speed string of [populateGPSFields]. *)
Definition gpsSpeed (s : bimg.EXIF) : string :=
  if String.eqb (bimg.GPSSpeed s) "" || String.eqb (bimg.GPSSpeedRef s) "" then ""
  else
    match parseEXIFRational (bimg.GPSSpeed s) with
    | (speed, None) =>
        let res := formatFloat speed 2 in
        if is_one_of (bimg.GPSSpeedRef s) ["K"; "k"] then res ++ " km/h"
        else if is_one_of (bimg.GPSSpeedRef s) ["M"; "m"] then res ++ " mph"
        else if is_one_of (bimg.GPSSpeedRef s) ["N"; "n"] then res ++ " kn"
        else res
    | (_, Some _) => ""
    end.

(** The direction and its reference of [populateGPSFields]. *)
Definition gpsDirection (s : bimg.EXIF) : float64 * string :=
  if String.eqb (bimg.GPSImgDirection s) "" then (F64.zero, "")
  else
    match parseEXIFRational (bimg.GPSImgDirection s) with
    | (dir, None) =>
        ((Math.Round (dir * F64.of_Z 100) / F64.of_Z 100)%f64,
         if is_one_of (bimg.GPSImgDirectionRef s) ["T"; "t"] then "True North"
         else if is_one_of (bimg.GPSImgDirectionRef s) ["M"; "m"] then "Magnetic North"
         else "")
    | (_, Some _) => (F64.zero, "")
    end.

(** Populates the GPS fields. *)
Definition populateGPSFields (s : bimg.EXIF) : option EXIFGPS :=
  if String.eqb (bimg.GPSLatitude s) "" || String.eqb (bimg.GPSLongitude s) ""
  then None
  else
    let lat := parseGPSCoordinate (bimg.GPSLatitude s) in
    let lat_signed :=
      if is_one_of (bimg.GPSLatitudeRef s) ["N"; "n"] then Some lat
      else if is_one_of (bimg.GPSLatitudeRef s) ["S"; "s"]
      then Some (lat * minus_one)%f64
      else None in
    match lat_signed with
    | None => None
    | Some lat =>
        let lon := parseGPSCoordinate (bimg.GPSLongitude s) in
        let lon_signed :=
          if is_one_of (bimg.GPSLongitudeRef s) ["E"; "e"] then Some lon
          else if is_one_of (bimg.GPSLongitudeRef s) ["W"; "w"]
          then Some (lon * minus_one)%f64
          else None in
        match lon_signed with
        | None => None
        | Some lon =>
            Some {| Latitude := round5 lat;
                    Longitude := round5 lon;
                    Altitude := gpsAltitude s;
                    Speed := gpsSpeed s;
                    Direction := fst (gpsDirection s);
                    DirectionRef := snd (gpsDirection s) |}
        end
    end.

(** ** The enumeration decoders

    Each definition is one [switch] of [ParseEXIFFromBimg]; the guard
    around the [switch] is part of the assembler below. *)

(** [(s.Flash & 1) == 1] *)
Definition flashFired (code : Z) : bool := Z.land code 1 =? 1.

(** The [switch s.Flash]; the default case stores [res.Flash]. *)
Definition flashMode (code : Z) : any :=
  match code with
  | 0x0 => any_string "No Flash"
  | 0x1 => any_string "Fired"
  | 0x5 => any_string "Fired, Return not detected"
  | 0x7 => any_string "Fired, Return detected"
  | 0x8 => any_string "On, Did not fire"
  | 0x9 => any_string "On, Fired"
  | 0xd => any_string "On, Return not detected"
  | 0xf => any_string "On, Return detected"
  | 0x10 => any_string "Off, Did not fire"
  | 0x14 => any_string "Off, Did not fire, Return not detected"
  | 0x18 => any_string "Auto, Did not fire"
  | 0x19 => any_string "Auto, Fired"
  | 0x1d => any_string "Auto, Fired, Return not detected"
  | 0x1f => any_string "Auto, Fired, Return detected"
  | 0x20 => any_string "No flash function"
  | 0x30 => any_string "Off, No flash function"
  | 0x41 => any_string "Fired, Red-eye reduction"
  | 0x45 => any_string "Fired, Red-eye reduction, Return not detected"
  | 0x47 => any_string "Fired, Red-eye reduction, Return detected"
  | 0x49 => any_string "On, Red-eye reduction"
  | 0x4d => any_string "On, Red-eye reduction, Return not detected"
  | 0x4f => any_string "On, Red-eye reduction, Return detected"
  | 0x50 => any_string "Off, Red-eye reduction"
  | 0x58 => any_string "Auto, Did not fire, Red-eye reduction"
  | 0x59 => any_string "Auto, Fired, Red-eye reduction"
  | 0x5d => any_string "Auto, Fired, Red-eye reduction, Return not detected"
  | 0x5f => any_string "Auto, Fired, Red-eye reduction, Return detected"
  | _ => any_bool (flashFired code)
  end.

(** The [switch s.ExposureProgram]. *)
Definition exposureProgram (code : Z) : any :=
  match code with
  | 0 => nil
  | 1 => any_string "Manual"
  | 2 => any_string "Program AE"
  | 3 => any_string "Aperture-priority AE"
  | 4 => any_string "Shutter speed priority AE"
  | 5 => any_string "Creative (Slow speed)"
  | 6 => any_string "Action (High speed)"
  | 7 => any_string "Portrait"
  | 8 => any_string "Landscape"
  | 9 => any_string "Bulb"
  | _ => any_int code
  end.

(** The [switch s.MeteringMode]. *)
Definition meteringMode (code : Z) : any :=
  match code with
  | 0 => nil
  | 1 => any_string "Average"
  | 2 => any_string "Center-weighted average"
  | 3 => any_string "Spot"
  | 4 => any_string "Multi-spot"
  | 5 => any_string "Multi-segment"
  | 6 => any_string "Partial"
  | 255 => any_string "Other"
  | _ => any_int code
  end.

(** The [switch s.Compression]. *)
Definition compression (code : Z) : any :=
  match code with
  | 1 => any_string "Uncompressed"
  | 2 => any_string "CCITT 1D"
  | 3 => any_string "T4/Group 3 Fax"
  | 4 => any_string "T6/Group 4 Fax"
  | 5 => any_string "LZW"
  | 6 => any_string "JPEG (old-style)"
  | 7 => any_string "JPEG"
  | 8 => any_string "Adobe Deflate"
  | 9 => any_string "JBIG B&W"
  | 10 => any_string "JBIG Color"
  | 99 => any_string "JPEG"
  | 262 => any_string "Kodak 262"
  | 32766 => any_string "Next"
  | 32767 => any_string "Sony ARW Compressed"
  | 32769 => any_string "Packed RAW"
  | 32770 => any_string "Samsung SRW Compressed"
  | 32771 => any_string "CCIRLEW"
  | 32772 => any_string "Samsung SRW Compressed 2"
  | 32773 => any_string "PackBits"
  | 32809 => any_string "Thunderscan"
  | 32867 => any_string "Kodak KDC Compressed"
  | 32895 => any_string "IT8CTPAD"
  | 32896 => any_string "IT8LW"
  | 32897 => any_string "IT8MP"
  | 32898 => any_string "IT8BL"
  | 32908 => any_string "PixarFilm"
  | 32909 => any_string "PixarLog"
  | 32946 => any_string "Deflate"
  | 32947 => any_string "DCS"
  | 33003 => any_string "Aperio JPEG 2000 YCbCr"
  | 33005 => any_string "Aperio JPEG 2000 RGB"
  | 34661 => any_string "JBIG"
  | 34676 => any_string "SGILog"
  | 34677 => any_string "SGILog24"
  | 34712 => any_string "JPEG 2000"
  | 34713 => any_string "Nikon NEF Compressed"
  | 34715 => any_string "JBIG2 TIFF FX"
  | 34718 => any_string "Microsoft Document Imaging (MDI) Binary Level Codec"
  | 34719 => any_string "Microsoft Document Imaging (MDI) Progressive Transform Codec"
  | 34720 => any_string "Microsoft Document Imaging (MDI) Vector"
  | 34887 => any_string "ESRI Lerc"
  | 34892 => any_string "Lossy JPEG"
  | 34925 => any_string "LZMA2"
  | 34926 => any_string "Zstd"
  | 34927 => any_string "WebP"
  | 34933 => any_string "PNG"
  | 34934 => any_string "JPEG XR"
  | 65000 => any_string "Kodak DCR Compressed"
  | 65535 => any_string "Pentax PEF Compressed"
  | _ => any_int code
  end.

(** The [switch s.ColorSpace]. *)
Definition colorSpace (code : Z) : any :=
  match code with
  | 0x1 => any_string "sRGB"
  | 0x2 => any_string "Adobe RGB"
  | 0xfffd => any_string "Wide Gamut RGB"
  | 0xfffe => any_string "ICC Profile"
  | 0xffff => any_string "Uncalibrated"
  | _ => any_int code
  end.

(** The [switch s.SensingMethod]. *)
Definition sensingMethod (code : Z) : any :=
  match code with
  | 1 => any_string "Not defined"
  | 2 => any_string "One-chip color area"
  | 3 => any_string "Two-chip color area"
  | 4 => any_string "Three-chip color area"
  | 5 => any_string "Color sequential area"
  | 7 => any_string "Trilinear"
  | 8 => any_string "Color sequential linear"
  | _ => any_int code
  end.

(** The [switch s.ExposureMode]. *)
Definition exposureMode (code : Z) : any :=
  match code with
  | 0 => any_string "Auto"
  | 1 => any_string "Manual"
  | 2 => any_string "Auto bracket"
  | _ => any_int code
  end.

(** ** The assembler *)

(** The [for _, part := range parts] loop of the subject area: [area] is
    [res.SubjectArea] and [i] the next index to write. *)
Fixpoint subjectArea_loop (parts : list string) (area : list Z) (i : nat)
  : list Z * nat :=
  match parts with
  | [] => (area, i)
  | part :: parts' =>
      match Strconv.Atoi part with
      | Err _ => subjectArea_loop parts' area i
      | Ok n => subjectArea_loop parts' (<[i := n]> area) (S i)
      end
  end.

(** The subject area block: [make([]int, len(parts))], the loop, and the
    final [res.SubjectArea[:i]]. *)
Definition subjectArea (raw : string) : option (list Z) :=
  if String.eqb raw "" then None
  else
    let parts := Strings.Split raw " " in
    if Nat.leb 2 (length parts) && Nat.leb (length parts) 4 then
      let '(area, i) := subjectArea_loop parts (replicate (length parts) 0) 0 in
      Some (take i area)
    else None.

(** A field that is only assigned under a guard keeps its zero value. *)
Definition when {A} (guard : bool) (zero value : A) : A :=
  if guard then value else zero.

Definition nonempty (s : string) : bool := negb (String.eqb s "").

(** ParseEXIFFromBimg returns an EXIF struct by parsing the one returned by
    bimg. *)
Definition ParseEXIFFromBimg (s : bimg.EXIF) : EXIF :=
  {| Make := bimg.Make s;
     Model := bimg.Model s;
     Orientation := bimg.Orientation s;
     Software := bimg.Software s;
     YCbCrPositioning := bimg.YCbCrPositioning s;
     ExifVersion := bimg.ExifVersion s;
     ISO := bimg.ISOSpeedRatings s;
     ComponentsConfiguration := bimg.ComponentsConfiguration s;
     FocalLengthIn35mmFilm := bimg.FocalLengthIn35mmFilm s;
     ExifImageWidth := bimg.PixelXDimension s;
     ExifImageHeight := bimg.PixelYDimension s;
     SceneType := bimg.SceneType s;
     SceneCaptureType := bimg.SceneCaptureType s;
     XResolution :=
       when (nonempty (bimg.XResolution s)) ""
         (formatResolution (bimg.XResolution s) (bimg.ResolutionUnit s));
     YResolution :=
       when (nonempty (bimg.YResolution s)) ""
         (formatResolution (bimg.YResolution s) (bimg.ResolutionUnit s));
     DateTime :=
       when (nonempty (bimg.Datetime s)) "" (formatDateTime (bimg.Datetime s));
     DateTimeOriginal :=
       when (nonempty (bimg.DateTimeOriginal s)) ""
         (formatDateTime (bimg.DateTimeOriginal s));
     DateTimeDigitized :=
       when (nonempty (bimg.DateTimeDigitized s)) ""
         (formatDateTime (bimg.DateTimeDigitized s));
     FNumber :=
       when (nonempty (bimg.FNumber s)) ""
         (formatFloat (parseEXIFRationalOrLogError (bimg.FNumber s)) 3);
     ExposureTime :=
       when (nonempty (bimg.ExposureTime s)) ""
         (formatHumanRational (bimg.ExposureTime s));
     ShutterSpeedValue :=
       when (nonempty (bimg.ShutterSpeedValue s)) ""
         (formatHumanRational (bimg.ShutterSpeedValue s));
     ApertureValue :=
       when (nonempty (bimg.ApertureValue s)) ""
         (formatHumanRational (bimg.ApertureValue s));
     BrightnessValue :=
       when (nonempty (bimg.BrightnessValue s)) ""
         (formatHumanRational (bimg.BrightnessValue s));
     ExposureCompensation :=
       when (nonempty (bimg.ExposureBiasValue s) &&
             negb (String.eqb (bimg.ExposureBiasValue s) "0")) ""
         (formatHumanRational (bimg.ExposureBiasValue s));
     FocalLength :=
       when (nonempty (bimg.FocalLength s)) ""
         (formatFloat (parseEXIFRationalOrLogError (bimg.FocalLength s)) 2);
     SubjectArea := subjectArea (bimg.SubjectArea s);
     Flash := flashFired (bimg.Flash s);
     FlashMode := flashMode (bimg.Flash s);
     ExposureProgram :=
       when (0 <? bimg.ExposureProgram s) nil
         (exposureProgram (bimg.ExposureProgram s));
     MeteringMode :=
       when (0 <? bimg.MeteringMode s) nil (meteringMode (bimg.MeteringMode s));
     Compression :=
       when (0 <? bimg.Compression s) nil (compression (bimg.Compression s));
     ColorSpace :=
       when (0 <? bimg.ColorSpace s) nil (colorSpace (bimg.ColorSpace s));
     SensingMethod :=
       when (0 <? bimg.SensingMethod s) nil (sensingMethod (bimg.SensingMethod s));
     ExposureMode :=
       when (0 <? bimg.ExposureMode s) nil (exposureMode (bimg.ExposureMode s));
     WhiteBalance := nil;
     GPS := populateGPSFields s |}.

(** ** Package [encoding/json], as far as the struct tags use it *)

Module Json.

Inductive scalar :=
| Bool (b : bool)
| Int (n : Z)
| Float (f : float64)
| Str (s : string)
| Ints (l : list Z).

(** The values of the members of the object of an [EXIF]: scalars, and
    the object of the GPS record. *)
Inductive value :=
| Leaf (x : scalar)
| Object (members : list (string * scalar)).

(** A field tagged [omitempty] is left out when it is [false], 0, a
    [nil] pointer, a [nil] interface value, or an empty slice or string. *)
Definition omitempty_string (key s : string) : list (string * value) :=
  if String.eqb s "" then [] else [(key, Leaf (Str s))].

Definition omitempty_int (key : string) (n : Z) : list (string * value) :=
  if n =? 0 then [] else [(key, Leaf (Int n))].

Definition omitempty_bool (key : string) (b : bool) : list (string * value) :=
  if b then [(key, Leaf (Bool b))] else [].

(** An interface value is empty only when it is [nil], whatever it holds. *)
Definition omitempty_any (key : string) (a : any) : list (string * value) :=
  match a with
  | nil => []
  | any_string s => [(key, Leaf (Str s))]
  | any_int n => [(key, Leaf (Int n))]
  | any_bool b => [(key, Leaf (Bool b))]
  end.

Definition omitempty_ints (key : string) (l : option (list Z))
  : list (string * value) :=
  match l with
  | None | Some [] => []
  | Some l => [(key, Leaf (Ints l))]
  end.

Definition gps_fields (g : EXIFGPS) : list (string * scalar) :=
  [ ("latitude", Float (Latitude g));
    ("longitude", Float (Longitude g));
    ("altitude", Str (Altitude g));
    ("speed", Str (Speed g));
    ("direction", Float (Direction g));
    ("directionRef", Str (DirectionRef g)) ].

Definition omitempty_gps (key : string) (g : option EXIFGPS)
  : list (string * value) :=
  match g with
  | None => []
  | Some g => [(key, Object (gps_fields g))]
  end.

(** The members of the JSON object of an [EXIF] value, in the order of
    the struct's fields with the keys of its tags. *)
Definition exif_fields (e : EXIF) : list (string * value) :=
  omitempty_string "make" (Make e) ++
  omitempty_string "model" (Model e) ++
  omitempty_int "orientation" (Orientation e) ++
  omitempty_string "software" (Software e) ++
  omitempty_int "ycbcrPositioning" (YCbCrPositioning e) ++
  omitempty_string "exifVersion" (ExifVersion e) ++
  omitempty_int "iso" (ISO e) ++
  omitempty_string "componentsConfiguration" (ComponentsConfiguration e) ++
  omitempty_int "focalLengthIn35mmFilm" (FocalLengthIn35mmFilm e) ++
  omitempty_int "exifImageWidth" (ExifImageWidth e) ++
  omitempty_int "exifImageHeight" (ExifImageHeight e) ++
  omitempty_string "xResolution" (XResolution e) ++
  omitempty_string "yResolution" (YResolution e) ++
  omitempty_string "dateTime" (DateTime e) ++
  omitempty_string "dateTimeOriginal" (DateTimeOriginal e) ++
  omitempty_string "dateTimeDigitized" (DateTimeDigitized e) ++
  omitempty_string "fNumber" (FNumber e) ++
  omitempty_string "exposureTime" (ExposureTime e) ++
  omitempty_any "exposureProgram" (ExposureProgram e) ++
  omitempty_string "shutterSpeedValue" (ShutterSpeedValue e) ++
  omitempty_string "apertureValue" (ApertureValue e) ++
  omitempty_string "brightnessValue" (BrightnessValue e) ++
  omitempty_string "exposureCompensation" (ExposureCompensation e) ++
  omitempty_any "meteringMode" (MeteringMode e) ++
  omitempty_any "compression" (Compression e) ++
  omitempty_bool "flash" (Flash e) ++
  omitempty_any "flashMode" (FlashMode e) ++
  omitempty_string "focalLength" (FocalLength e) ++
  omitempty_ints "subjectArea" (SubjectArea e) ++
  omitempty_any "colorSpace" (ColorSpace e) ++
  omitempty_any "sensingMethod" (SensingMethod e) ++
  omitempty_any "exposureMode" (ExposureMode e) ++
  omitempty_any "whiteBalance" (WhiteBalance e) ++
  omitempty_string "sceneType" (SceneType e) ++
  omitempty_int "sceneCaptureType" (SceneCaptureType e) ++
  omitempty_gps "gps" (GPS e).

Definition is_finite (f : float64) : bool :=
  match f with
  | S754_nan | S754_infinity _ => false
  | _ => true
  end.

(** [json.Marshal] of an [*EXIF]: the members of its object, or an
    [UnsupportedValueError] ([None]) when a coordinate or the direction
    is an infinity or NaN. *)
Definition Marshal (e : EXIF) : option (list (string * value)) :=
  match GPS e with
  | Some g =>
      if is_finite (Latitude g) && is_finite (Longitude g) && is_finite (Direction g)
      then Some (exif_fields e) else None
  | None => Some (exif_fields e)
  end.

Definition keys (members : list (string * value)) : list string :=
  map fst members.

End Json.

(** ** Sample raw records

    A raw record with the given flash code, subject area and coordinates,
    every other field having its zero value. *)
Definition sample (flash : Z) (subject lat latRef lon lonRef : string) : bimg.EXIF :=
  {| bimg.Make := "";
     bimg.Model := "";
     bimg.Orientation := 0;
     bimg.XResolution := "";
     bimg.YResolution := "";
     bimg.ResolutionUnit := 0;
     bimg.Software := "";
     bimg.Datetime := "";
     bimg.YCbCrPositioning := 0;
     bimg.Compression := 0;
     bimg.ExposureTime := "";
     bimg.FNumber := "";
     bimg.ExposureProgram := 0;
     bimg.ISOSpeedRatings := 0;
     bimg.ExifVersion := "";
     bimg.DateTimeOriginal := "";
     bimg.DateTimeDigitized := "";
     bimg.ComponentsConfiguration := "";
     bimg.ShutterSpeedValue := "";
     bimg.ApertureValue := "";
     bimg.BrightnessValue := "";
     bimg.ExposureBiasValue := "";
     bimg.MeteringMode := 0;
     bimg.Flash := flash;
     bimg.FocalLength := "";
     bimg.SubjectArea := subject;
     bimg.ColorSpace := 0;
     bimg.PixelXDimension := 0;
     bimg.PixelYDimension := 0;
     bimg.SensingMethod := 0;
     bimg.SceneType := "";
     bimg.ExposureMode := 0;
     bimg.FocalLengthIn35mmFilm := 0;
     bimg.SceneCaptureType := 0;
     bimg.GPSLatitudeRef := latRef;
     bimg.GPSLatitude := lat;
     bimg.GPSLongitudeRef := lonRef;
     bimg.GPSLongitude := lon;
     bimg.GPSAltitudeRef := "";
     bimg.GPSAltitude := "";
     bimg.GPSSpeedRef := "";
     bimg.GPSSpeed := "";
     bimg.GPSImgDirectionRef := "";
     bimg.GPSImgDirection := "" |}.

(** ** Vocabulary of the statements *)

(** The sum in the specification's words: every component goes through
    the lenient parser, so that one that does not parse counts as 0 and
    the others still contribute.  It is compared with the loop of
    [parseGPSCoordinate] below. *)
Fixpoint lenient_sum (i : N) (parts : list string) (res : float64) : float64 :=
  match parts with
  | [] => res
  | p :: parts' =>
      lenient_sum (N.succ i) parts'
        (res + parseEXIFRationalOrLogError p / Math.Pow (F64.of_Z 60) i)%f64
  end.

Definition parses (p : string) : Prop := snd (parseEXIFRational p) = None.

(** [r] is [x] rounded to 5 decimals: with [p] the product of [x] and
    100000, [r] is the quotient by 100000 of the integer nearest to [p],
    a half going away from zero.  The nearest integer of [m * 2^e],
    [e < 0], is the [k] with [|k * 2^-e - m| <= 2^-e / 2]; a product that
    has no fractional part, or is an infinity or NaN, is divided as it
    is. *)
Definition rounded_to_5_decimals (x r : float64) : Prop :=
  let p := (x * F64.of_Z 100000)%f64 in
  match p with
  | S754_finite sg m e =>
      if e <? 0 then
        exists k,
          0 <= k /\
          2 * Z.abs (k * 2 ^ (- e) - Zpos m) <= 2 ^ (- e) /\
          (2 * Z.abs (k * 2 ^ (- e) - Zpos m) = 2 ^ (- e) -> Zpos m < k * 2 ^ (- e)) /\
          r = ((if k =? 0 then S754_zero sg else F64.of_Z (if sg then - k else k))
               / F64.of_Z 100000)%f64
      else r = (p / F64.of_Z 100000)%f64
  | _ => r = (p / F64.of_Z 100000)%f64
  end.

(** The references each axis accepts. *)
Definition latitude_refs : list string := ["N"; "n"; "S"; "s"].
Definition longitude_refs : list string := ["E"; "e"; "W"; "w"].

(** The codes of the [switch s.Flash]. *)
Definition flash_codes : list Z :=
  [ 0x0; 0x1; 0x5; 0x7; 0x8; 0x9; 0xd; 0xf; 0x10; 0x14; 0x18; 0x19; 0x1d; 0x1f;
    0x20; 0x30; 0x41; 0x45; 0x47; 0x49; 0x4d; 0x4f; 0x50; 0x58; 0x59; 0x5d; 0x5f ].

(** The integer of a token, when it is one. *)
Definition Atoi_ok (part : string) : option Z :=
  match Strconv.Atoi part with
  | Ok n => Some n
  | Err _ => None
  end.

(** ** Content negotiation ([controllers.go]) *)

Section Negotiation.

(** The media type that [mime.ParseMediaType] returns for an element of
    the header; [determineAcceptMimeType] ignores its other two results. *)
Variable ParseMediaType : string -> string.

(** The [switch mediaType] of the loop: the format of a recognised type. *)
Definition acceptedFormat (mediaType : string) : option string :=
  if String.eqb mediaType "image/webp" then Some "webp"
  else if String.eqb mediaType "image/png" then Some "png"
  else if String.eqb mediaType "image/jpeg" then Some "jpeg"
  else if String.eqb mediaType "image/avif" then Some "avif"
  else None.

(** The [for _, v := range] loop: the first recognised element returns. *)
Fixpoint determineAcceptMimeType_loop (parts : list string) : string :=
  match parts with
  | [] => ""
  | v :: parts' =>
      match acceptedFormat (ParseMediaType v) with
      | Some format => format
      | None => determineAcceptMimeType_loop parts'
      end
  end.

Definition determineAcceptMimeType (accept : string) : string :=
  determineAcceptMimeType_loop (Strings.Split accept ",").

End Negotiation.

(** [mime.ParseMediaType] on a lower-case "type/subtype" that has no
    parameters and no spaces: the media type is the text itself. *)
Definition bare_media_type (v : string) : string := v.

(** ** Vocabulary of the extra statements *)

(** The codes of the [switch s.ExposureProgram]. *)
Definition exposureProgram_codes : list Z :=
  [ 0; 1; 2; 3; 4; 5; 6; 7; 8; 9 ].

(** The codes of the [switch s.MeteringMode]. *)
Definition meteringMode_codes : list Z :=
  [ 0; 1; 2; 3; 4; 5; 6; 255 ].

(** The codes of the [switch s.Compression]. *)
Definition compression_codes : list Z :=
  [ 1; 2; 3; 4; 5; 6; 7; 8; 9; 10; 99; 262; 32766; 32767; 32769; 32770;
    32771; 32772; 32773; 32809; 32867; 32895; 32896; 32897; 32898; 32908;
    32909; 32946; 32947; 33003; 33005; 34661; 34676; 34677; 34712; 34713;
    34715; 34718; 34719; 34720; 34887; 34892; 34925; 34926; 34927; 34933;
    34934; 65000; 65535 ].

(** The codes of the [switch s.ColorSpace]. *)
Definition colorSpace_codes : list Z :=
  [ 0x1; 0x2; 0xfffd; 0xfffe; 0xffff ].

(** The codes of the [switch s.SensingMethod]. *)
Definition sensingMethod_codes : list Z :=
  [ 1; 2; 3; 4; 5; 7; 8 ].

(** The codes of the [switch s.ExposureMode]. *)
Definition exposureMode_codes : list Z :=
  [ 0; 1; 2 ].

(** [json.Marshal] returns an object for the record, and the object has a
    member with the key. *)
Definition has_member (key : string) (e : EXIF) : Prop :=
  exists members, Json.Marshal e = Some members /\ In key (Json.keys members).

(** A raw record whose six enumerations all have the given code, every
    other field having its zero value. *)
Definition sample_codes (code : Z) : bimg.EXIF :=
  {| bimg.Make := "";
     bimg.Model := "";
     bimg.Orientation := 0;
     bimg.XResolution := "";
     bimg.YResolution := "";
     bimg.ResolutionUnit := 0;
     bimg.Software := "";
     bimg.Datetime := "";
     bimg.YCbCrPositioning := 0;
     bimg.Compression := code;
     bimg.ExposureTime := "";
     bimg.FNumber := "";
     bimg.ExposureProgram := code;
     bimg.ISOSpeedRatings := 0;
     bimg.ExifVersion := "";
     bimg.DateTimeOriginal := "";
     bimg.DateTimeDigitized := "";
     bimg.ComponentsConfiguration := "";
     bimg.ShutterSpeedValue := "";
     bimg.ApertureValue := "";
     bimg.BrightnessValue := "";
     bimg.ExposureBiasValue := "";
     bimg.MeteringMode := code;
     bimg.Flash := 0;
     bimg.FocalLength := "";
     bimg.SubjectArea := "";
     bimg.ColorSpace := code;
     bimg.PixelXDimension := 0;
     bimg.PixelYDimension := 0;
     bimg.SensingMethod := code;
     bimg.SceneType := "";
     bimg.ExposureMode := code;
     bimg.FocalLengthIn35mmFilm := 0;
     bimg.SceneCaptureType := 0;
     bimg.GPSLatitudeRef := "";
     bimg.GPSLatitude := "";
     bimg.GPSLongitudeRef := "";
     bimg.GPSLongitude := "";
     bimg.GPSAltitudeRef := "";
     bimg.GPSAltitude := "";
     bimg.GPSSpeedRef := "";
     bimg.GPSSpeed := "";
     bimg.GPSImgDirectionRef := "";
     bimg.GPSImgDirection := "" |}.

(** Fields that the camera's form can hold: four digits for the year and
    two for each other field. *)
Definition two_digit_fields (t : Time.civil) : Prop :=
  0 <= Time.year t <= 9999 /\ 0 <= Time.month t < 100 /\ 0 <= Time.day t < 100 /\
  0 <= Time.hour t < 100 /\ 0 <= Time.minute t < 100 /\ 0 <= Time.second t < 100.

(** A raw value that the rational parser rejects. *)
Definition malformed (raw : string) : Prop := snd (parseEXIFRational raw) <> None.

(** Texts made of decimal digits. *)
Definition all_digits (l : list ascii) : Prop :=
  Forall (fun c => Strconv.is_digit c = true) l.

(** A raw record with the given exposure time and timestamp, every other
    field having its zero value. *)
Definition sample_exposure (exposure datetime : string) : bimg.EXIF :=
  {| bimg.Make := "";
     bimg.Model := "";
     bimg.Orientation := 0;
     bimg.XResolution := "";
     bimg.YResolution := "";
     bimg.ResolutionUnit := 0;
     bimg.Software := "";
     bimg.Datetime := datetime;
     bimg.YCbCrPositioning := 0;
     bimg.Compression := 0;
     bimg.ExposureTime := exposure;
     bimg.FNumber := "";
     bimg.ExposureProgram := 0;
     bimg.ISOSpeedRatings := 0;
     bimg.ExifVersion := "";
     bimg.DateTimeOriginal := "";
     bimg.DateTimeDigitized := "";
     bimg.ComponentsConfiguration := "";
     bimg.ShutterSpeedValue := "";
     bimg.ApertureValue := "";
     bimg.BrightnessValue := "";
     bimg.ExposureBiasValue := "";
     bimg.MeteringMode := 0;
     bimg.Flash := 0;
     bimg.FocalLength := "";
     bimg.SubjectArea := "";
     bimg.ColorSpace := 0;
     bimg.PixelXDimension := 0;
     bimg.PixelYDimension := 0;
     bimg.SensingMethod := 0;
     bimg.SceneType := "";
     bimg.ExposureMode := 0;
     bimg.FocalLengthIn35mmFilm := 0;
     bimg.SceneCaptureType := 0;
     bimg.GPSLatitudeRef := "";
     bimg.GPSLatitude := "";
     bimg.GPSLongitudeRef := "";
     bimg.GPSLongitude := "";
     bimg.GPSAltitudeRef := "";
     bimg.GPSAltitude := "";
     bimg.GPSSpeedRef := "";
     bimg.GPSSpeed := "";
     bimg.GPSImgDirectionRef := "";
     bimg.GPSImgDirection := "" |}.

(** A timestamp as the camera writes it, "YYYY:MM:DD HH:MM:SS". *)
Definition exif_timestamp (t : Time.civil) : string :=
  Time.zero_padded 4 (Time.year t) ++ ":" ++ Time.zero_padded 2 (Time.month t) ++ ":" ++
  Time.zero_padded 2 (Time.day t) ++ " " ++ Time.zero_padded 2 (Time.hour t) ++ ":" ++
  Time.zero_padded 2 (Time.minute t) ++ ":" ++ Time.zero_padded 2 (Time.second t).

(** The ranges of the fields of a date and time of the years 0 to 9999. *)
Definition valid_civil (t : Time.civil) : Prop :=
  0 <= Time.year t <= 9999 /\ 1 <= Time.month t <= 12 /\
  1 <= Time.day t <= Time.daysIn (Time.month t) (Time.year t) /\
  0 <= Time.hour t < 24 /\ 0 <= Time.minute t < 60 /\ 0 <= Time.second t < 60.

(** * Properties *)

(** ** The library models *)

Lemma append_nil (s : string) : "" ++ s = s.
Proof. reflexivity. Qed.

Lemma append_cons (c : ascii) (a b : string) : String c a ++ b = String c (a ++ b).
Proof. reflexivity. Qed.

Section StringFacts.

Variable sep : ascii.

Lemma cons_head_length c l :
  l <> [] -> length (Strings.cons_head c l) = length l.
Proof. destruct l; [congruence | reflexivity]. Qed.

Lemma SplitN_length s : forall n,
  length (Strings.SplitN s sep (S n)) = Nat.min (S n) (S (Strings.Count s sep)).
Proof.
  induction s as [|c s IH]; intros [|n]; try reflexivity.
  cbn [Strings.SplitN Strings.Count].
  destruct (Ascii.eqb c sep).
  - cbn [length]. rewrite IH. lia.
  - rewrite cons_head_length, IH; [lia|].
    intros E. specialize (IH (S n)). rewrite E in IH. cbn in IH. lia.
Qed.

(** [SplitN] never returns an empty slice when asked for a piece. *)
Lemma SplitN_length_pos s n : (1 <= length (Strings.SplitN s sep (S n)))%nat.
Proof. rewrite SplitN_length. lia. Qed.

Lemma SplitN_whole s : forall n,
  Strings.Count s sep = O -> Strings.SplitN s sep (S n) = [s].
Proof.
  induction s as [|c s IH]; intros [|n] H; try reflexivity.
  cbn [Strings.SplitN Strings.Count] in *.
  destruct (Ascii.eqb c sep); [discriminate|].
  rewrite IH by exact H. reflexivity.
Qed.

Lemma SplitN_cut a b : forall n,
  Strings.Count a sep = O ->
  Strings.SplitN (a ++ String sep b) sep (S (S n)) = a :: Strings.SplitN b sep (S n).
Proof.
  induction a as [|c a IH]; intros n H.
  - rewrite append_nil. cbn [Strings.SplitN]. rewrite Ascii.eqb_refl. reflexivity.
  - cbn [Strings.Count] in H. rewrite append_cons. cbn [Strings.SplitN].
    destruct (Ascii.eqb c sep); [discriminate|].
    rewrite IH by exact H. reflexivity.
Qed.

Lemma Count_app a b :
  Strings.Count (a ++ b) sep = (Strings.Count a sep + Strings.Count b sep)%nat.
Proof.
  induction a as [|c a IH]; [reflexivity|].
  rewrite append_cons. cbn [Strings.Count]. rewrite IH. lia.
Qed.

End StringFacts.

Lemma eqb_zero_iff (x : float64) :
  (x == F64.zero)%f64 = true <-> exists s, x = S754_zero s.
Proof.
  split.
  - destruct x as [s|[]| |[] m e]; try discriminate; eauto.
  - intros [s ->]. reflexivity.
Qed.

Lemma ParseFloat_empty : exists e, Strconv.ParseFloat "" = Err e.
Proof. eexists. reflexivity. Qed.

(** ** Rational parsing *)

(** The four shapes of a trimmed input: blank, too many slashes, one
    number, one fraction. *)
Lemma parseEXIFRational_blank (v : string) :
  Strings.TrimSpace v = "" -> parseEXIFRational v = (F64.zero, None).
Proof. intros H. unfold parseEXIFRational. rewrite H. reflexivity. Qed.

Lemma Count_pos_nonempty (t : string) (c : ascii) :
  (1 <= Strings.Count t c)%nat -> String.eqb t "" = false.
Proof. destruct t; [cbn; lia | reflexivity]. Qed.

Lemma parseEXIFRational_slashes (v : string) :
  (2 <= Strings.Count (Strings.TrimSpace v) "/")%nat ->
  parseEXIFRational v = (F64.zero, Some more_than_1_slash).
Proof.
  intros H. unfold parseEXIFRational.
  rewrite (Count_pos_nonempty _ "/") by lia.
  rewrite SplitN_length.
  replace (Nat.min 3 (S (Strings.Count (Strings.TrimSpace v) "/"))) with 3%nat by lia.
  reflexivity.
Qed.

Lemma parseEXIFRational_number (v : string) :
  Strings.TrimSpace v <> "" ->
  Strings.Count (Strings.TrimSpace v) "/" = O ->
  parseEXIFRational v =
    match Strconv.ParseFloat (Strings.TrimSpace v) with
    | Ok num => (num, None)
    | Err err => (F64.zero, Some err)
    end.
Proof.
  intros Hne H. unfold parseEXIFRational.
  apply String.eqb_neq in Hne as Hne'. rewrite Hne'.
  rewrite SplitN_whole by exact H.
  cbn [length index nth Nat.ltb Nat.leb Nat.eqb orb].
  rewrite Hne'. destruct (Strconv.ParseFloat _); reflexivity.
Qed.

Lemma parseEXIFRational_fraction (v n d : string) :
  Strings.TrimSpace v = n ++ "/" ++ d ->
  Strings.Count n "/" = O ->
  Strings.Count d "/" = O ->
  parseEXIFRational v =
    if String.eqb n "" then (F64.zero, Some numerator_is_empty)
    else
      match Strconv.ParseFloat n with
      | Err err => (F64.zero, Some err)
      | Ok num =>
          if (num == F64.zero)%f64 then (num, None)
          else
            match Strconv.ParseFloat d with
            | Err err => (F64.zero, Some err)
            | Ok den =>
                if (den == F64.zero)%f64 then (F64.zero, Some denumerator_is_0)
                else ((num / den)%f64, None)
            end
      end.
Proof.
  intros H Hn Hd. unfold parseEXIFRational. rewrite H.
  change ("/" ++ d) with (String "/" d).
  rewrite (Count_pos_nonempty _ "/")
    by (rewrite Count_app; cbn [Strings.Count]; rewrite Ascii.eqb_refl; lia).
  rewrite SplitN_cut by exact Hn. rewrite SplitN_whole by exact Hd.
  cbn [length index nth Nat.ltb Nat.leb Nat.eqb orb].
  reflexivity.
Qed.

Lemma div_zero_eqb (s : bool) (den : float64) :
  den <> S754_nan -> (den == F64.zero)%f64 = false ->
  (S754_zero s == S754_zero s / den)%f64 = true.
Proof.
  intros Hnan Hz. destruct den as [s'|s'| |s' m e]; try reflexivity.
  - discriminate.
  - congruence.
Qed.

(** C3.  On an input of the form "N/D" (trimmed, one slash):
    - a numerator that parses to zero is returned at once, whatever the
      denominator is, so "0/0" is 0 without error;
    - a non-zero numerator over a zero denominator, such as "5/0", is an
      error;
    - more than one slash is an error;
    - when the denominator is not zero, the result is the quotient N/D (for
      a zero numerator the numerator itself, which equals the quotient). *)
Theorem parseEXIFRational_fractions :
  (forall v n d num,
     Strings.TrimSpace v = n ++ "/" ++ d ->
     Strings.Count n "/" = O -> Strings.Count d "/" = O ->
     Strconv.ParseFloat n = Ok num -> (num == F64.zero)%f64 = true ->
     parseEXIFRational v = (num, None)) /\
  parseEXIFRational "0/0" = (F64.zero, None) /\
  (forall v n d num den,
     Strings.TrimSpace v = n ++ "/" ++ d ->
     Strings.Count n "/" = O -> Strings.Count d "/" = O ->
     Strconv.ParseFloat n = Ok num -> (num == F64.zero)%f64 = false ->
     Strconv.ParseFloat d = Ok den -> (den == F64.zero)%f64 = true ->
     parseEXIFRational v = (F64.zero, Some denumerator_is_0)) /\
  parseEXIFRational "5/0" = (F64.zero, Some denumerator_is_0) /\
  (forall v,
     (2 <= Strings.Count (Strings.TrimSpace v) "/")%nat ->
     parseEXIFRational v = (F64.zero, Some more_than_1_slash)) /\
  (forall v n d num den,
     Strings.TrimSpace v = n ++ "/" ++ d ->
     Strings.Count n "/" = O -> Strings.Count d "/" = O ->
     Strconv.ParseFloat n = Ok num ->
     Strconv.ParseFloat d = Ok den -> (den == F64.zero)%f64 = false ->
     snd (parseEXIFRational v) = None /\
     (if (num == F64.zero)%f64
      then fst (parseEXIFRational v) = num /\
           (den <> S754_nan -> (fst (parseEXIFRational v) == num / den)%f64 = true)
      else fst (parseEXIFRational v) = (num / den)%f64)).
Proof.
  assert (Hne : forall n num, Strconv.ParseFloat n = Ok num -> String.eqb n "" = false).
  { intros n num H. destruct n; [discriminate H | reflexivity]. }
  refine (conj _ (conj _ (conj _ (conj _ (conj _ _))))).
  - intros v n d num H Hn Hd Hnum Hz.
    rewrite (parseEXIFRational_fraction v n d H Hn Hd), (Hne _ _ Hnum), Hnum, Hz.
    reflexivity.
  - reflexivity.
  - intros v n d num den H Hn Hd Hnum Hnz Hden Hz.
    rewrite (parseEXIFRational_fraction v n d H Hn Hd), (Hne _ _ Hnum), Hnum, Hnz, Hden, Hz.
    reflexivity.
  - reflexivity.
  - apply parseEXIFRational_slashes.
  - intros v n d num den H Hn Hd Hnum Hden Hnz.
    rewrite (parseEXIFRational_fraction v n d H Hn Hd), (Hne _ _ Hnum), Hnum, Hden, Hnz.
    destruct (num == F64.zero)%f64 eqn:Hz; cbn [fst snd]; split; try reflexivity.
    split; [reflexivity|]. intros Hnan.
    apply eqb_zero_iff in Hz as [s ->]. apply div_zero_eqb; assumption.
Qed.

Lemma parseEXIFRational_fractions_witness :
  parseEXIFRational " 0/x" = (F64.zero, None) /\
  parseEXIFRational "5/0.0" = (F64.zero, Some denumerator_is_0) /\
  parseEXIFRational "1/2/3" = (F64.zero, Some more_than_1_slash) /\
  fst (parseEXIFRational "3/4 ") = (F64.of_Z 3 / F64.of_Z 4)%f64.
Proof.
  destruct parseEXIFRational_fractions as (Hzero & _ & Hdiv0 & _ & Hslash & Hquot).
  refine (conj _ (conj _ (conj _ _))).
  - apply (Hzero " 0/x" "0" "x"); reflexivity.
  - apply (Hdiv0 "5/0.0" "5" "0.0" (F64.of_Z 5) F64.zero); reflexivity.
  - apply (Hslash "1/2/3"). vm_compute. lia.
  - apply (Hquot "3/4 " "3" "4" (F64.of_Z 3) (F64.of_Z 4)); reflexivity.
Defined.

(** C9 (amended).  An input that is blank once trimmed is not an error: it
    is the value 0.  An input that starts, once trimmed, with a slash is
    an error: the numerator is empty, unless a second slash is reported
    first. *)
Theorem parseEXIFRational_empty_numerator (v : string) :
  (Strings.TrimSpace v = "" -> parseEXIFRational v = (F64.zero, None)) /\
  (forall d, Strings.TrimSpace v = "/" ++ d ->
     parseEXIFRational v =
       (F64.zero,
        Some (if Nat.eqb (Strings.Count d "/") 0
              then numerator_is_empty else more_than_1_slash))).
Proof.
  split; [apply parseEXIFRational_blank|].
  intros d H. destruct (Nat.eqb_spec (Strings.Count d "/") 0) as [Hd|Hd].
  - rewrite (parseEXIFRational_fraction v "" d); [reflexivity | exact H | reflexivity | exact Hd].
  - apply parseEXIFRational_slashes. rewrite H.
    change ("/" ++ d) with (String "/" d). cbn [Strings.Count].
    rewrite Ascii.eqb_refl. lia.
Qed.

Lemma parseEXIFRational_empty_numerator_witness :
  parseEXIFRational "  " = (F64.zero, None) /\
  parseEXIFRational " /5" = (F64.zero, Some numerator_is_empty).
Proof.
  split.
  - apply (proj1 (parseEXIFRational_empty_numerator "  ")). reflexivity.
  - apply (proj2 (parseEXIFRational_empty_numerator " /5") "5"). reflexivity.
Defined.

(** C9 as stated fails on the empty string, whose numerator is empty and
    which is no error. *)
Lemma parseEXIFRational_empty_string_no_error :
  Strings.TrimSpace "" = "" /\
  ~ (exists err, snd (parseEXIFRational "") = Some err).
Proof. split; [reflexivity|]. intros [err H]. discriminate H. Qed.

(** ** GPS coordinates *)

Lemma parseGPSCoordinate_loop_all parts : forall i res,
  Forall parses parts ->
  parseGPSCoordinate_loop i parts res = lenient_sum i parts res.
Proof.
  induction parts as [|p parts IH]; intros i res H; [reflexivity|].
  inversion H as [|? ? Hp Hparts]; subst.
  cbn [parseGPSCoordinate_loop lenient_sum].
  unfold parses, parseEXIFRationalOrLogError in *.
  destruct (parseEXIFRational p) as [r [err|]]; [discriminate Hp|].
  apply IH, Hparts.
Qed.

Lemma parseGPSCoordinate_loop_some parts : forall i res,
  Exists (fun p => ~ parses p) parts ->
  parseGPSCoordinate_loop i parts res = F64.zero.
Proof.
  induction parts as [|p parts IH]; intros i res H; [inversion H|].
  cbn [parseGPSCoordinate_loop]. unfold parses in *.
  destruct (parseEXIFRational p) as [r [err|]] eqn:E; [reflexivity|].
  apply IH. inversion H as [? ? Hp|]; subst; [|assumption].
  rewrite E in Hp. contradiction Hp. reflexivity.
Qed.

Lemma is_one_of_In (x : string) (l : list string) :
  is_one_of x l = true <-> In x l.
Proof.
  unfold is_one_of. rewrite existsb_exists. split.
  - intros (y & Hy & E). apply String.eqb_eq in E. congruence.
  - intros H. exists x. split; [exact H | apply String.eqb_refl].
Qed.

Lemma is_one_of_app (x : string) (l1 l2 : list string) :
  is_one_of x (l1 ++ l2)%list = is_one_of x l1 || is_one_of x l2.
Proof. apply existsb_app. Qed.

Lemma is_one_of_disjoint (x : string) (l1 l2 : list string) :
  (forall a, In a l1 -> ~ In a l2) ->
  is_one_of x l1 = true -> is_one_of x l2 = false.
Proof.
  intros Hdis H1. apply is_one_of_In in H1.
  destruct (is_one_of x l2) eqn:H2; [|reflexivity].
  apply is_one_of_In in H2. destruct (Hdis x H1 H2).
Qed.

Lemma north_is_not_south (x : string) :
  is_one_of x ["N"; "n"] = true -> is_one_of x ["S"; "s"] = false.
Proof.
  apply is_one_of_disjoint. cbn. intros a [<-|[<-|[]]] [E|[E|[]]]; discriminate E.
Qed.

Lemma east_is_not_west (x : string) :
  is_one_of x ["E"; "e"] = true -> is_one_of x ["W"; "w"] = false.
Proof.
  apply is_one_of_disjoint. cbn. intros a [<-|[<-|[]]] [E|[E|[]]]; discriminate E.
Qed.

(** What [populateGPSFields] returns once both coordinates are present. *)
Lemma populateGPSFields_present (s : bimg.EXIF) :
  bimg.GPSLatitude s <> "" -> bimg.GPSLongitude s <> "" ->
  populateGPSFields s =
    if is_one_of (bimg.GPSLatitudeRef s) latitude_refs &&
       is_one_of (bimg.GPSLongitudeRef s) longitude_refs
    then
      let lat := parseGPSCoordinate (bimg.GPSLatitude s) in
      let lon := parseGPSCoordinate (bimg.GPSLongitude s) in
      Some {| Latitude :=
                round5 (if is_one_of (bimg.GPSLatitudeRef s) ["S"; "s"]
                        then lat * minus_one else lat)%f64;
              Longitude :=
                round5 (if is_one_of (bimg.GPSLongitudeRef s) ["W"; "w"]
                        then lon * minus_one else lon)%f64;
              Altitude := gpsAltitude s;
              Speed := gpsSpeed s;
              Direction := fst (gpsDirection s);
              DirectionRef := snd (gpsDirection s) |}
    else None.
Proof.
  intros Hlat Hlon. unfold populateGPSFields.
  apply String.eqb_neq in Hlat, Hlon. rewrite Hlat, Hlon. cbn [orb].
  change latitude_refs with (["N"; "n"] ++ ["S"; "s"])%list.
  change longitude_refs with (["E"; "e"] ++ ["W"; "w"])%list.
  rewrite !is_one_of_app.
  destruct (is_one_of (bimg.GPSLatitudeRef s) ["N"; "n"]) eqn:HN.
  - rewrite (north_is_not_south _ HN). cbn [orb andb].
    destruct (is_one_of (bimg.GPSLongitudeRef s) ["E"; "e"]) eqn:HE.
    + rewrite (east_is_not_west _ HE). reflexivity.
    + destruct (is_one_of (bimg.GPSLongitudeRef s) ["W"; "w"]); reflexivity.
  - destruct (is_one_of (bimg.GPSLatitudeRef s) ["S"; "s"]); [|reflexivity].
    cbn [orb andb].
    destruct (is_one_of (bimg.GPSLongitudeRef s) ["E"; "e"]) eqn:HE.
    + rewrite (east_is_not_west _ HE). reflexivity.
    + destruct (is_one_of (bimg.GPSLongitudeRef s) ["W"; "w"]); reflexivity.
Qed.

(** C1 (amended).  When every component of a coordinate parses, the
    decoder returns the sum of the components over the powers of 60, added
    from the left.  When some component does not parse, the whole
    coordinate is 0: the components that do parse are dropped with it.  In
    both cases a record with recognised references is still produced. *)
Theorem parseGPSCoordinate_sum_or_zero :
  (forall v,
     Forall parses (Strings.Split v " ") ->
     parseGPSCoordinate v = lenient_sum 0 (Strings.Split v " ") F64.zero) /\
  (forall v,
     Exists (fun p => ~ parses p) (Strings.Split v " ") ->
     parseGPSCoordinate v = F64.zero) /\
  (forall s,
     bimg.GPSLatitude s <> "" -> bimg.GPSLongitude s <> "" ->
     is_one_of (bimg.GPSLatitudeRef s) latitude_refs = true ->
     is_one_of (bimg.GPSLongitudeRef s) longitude_refs = true ->
     exists g, populateGPSFields s = Some g).
Proof.
  refine (conj _ (conj _ _)).
  - intros v H. apply parseGPSCoordinate_loop_all, H.
  - intros v H. apply parseGPSCoordinate_loop_some, H.
  - intros s Hlat Hlon HlatRef HlonRef.
    rewrite (populateGPSFields_present s Hlat Hlon), HlatRef, HlonRef.
    eexists. reflexivity.
Qed.

Lemma parseGPSCoordinate_sum_or_zero_witness :
  parseGPSCoordinate "40 26 46.3" =
    (F64.zero + F64.of_Z 40 / F64.of_Z 1 + F64.of_Z 26 / F64.of_Z 60
     + F64.of_decimal 463 1 / F64.of_Z 3600)%f64 /\
  parseGPSCoordinate "40 26 x" = F64.zero /\
  exists g, populateGPSFields (sample 0 "" "40 26 x" "N" "73 58 12" "W") = Some g.
Proof.
  destruct parseGPSCoordinate_sum_or_zero as (Hall & Hsome & Hrecord).
  refine (conj _ (conj _ _)).
  - rewrite (Hall "40 26 46.3"); [reflexivity|].
    repeat constructor.
  - apply (Hsome "40 26 x").
    apply Exists_cons_tl, Exists_cons_tl, Exists_cons_hd.
    unfold parses. vm_compute. discriminate.
  - apply (Hrecord (sample 0 "" "40 26 x" "N" "73 58 12" "W"));
      solve [discriminate | reflexivity].
Defined.

(** C1 as stated fails on "40 26 x": zeroing the component that does not
    parse would leave 40 + 26/60, and the decoder returns 0. *)
Lemma parseGPSCoordinate_failure_is_not_lenient :
  lenient_sum 0 (Strings.Split "40 26 x" " ") F64.zero =
    (F64.zero + F64.of_Z 40 / F64.of_Z 1 + F64.of_Z 26 / F64.of_Z 60
     + F64.zero / F64.of_Z 3600)%f64 /\
  parseGPSCoordinate "40 26 x" = F64.zero /\
  parseGPSCoordinate "40 26 x" <> lenient_sum 0 (Strings.Split "40 26 x" " ") F64.zero.
Proof.
  refine (conj _ (conj _ _)); [reflexivity | reflexivity |].
  vm_compute. discriminate.
Qed.

(** [math.Round] of a number with a fractional part is the nearest
    integer, a half going away from zero. *)
Lemma Round_nearest (sg : bool) (m : positive) (e : Z) :
  e < 0 ->
  exists k,
    0 <= k /\
    2 * Z.abs (k * 2 ^ (- e) - Zpos m) <= 2 ^ (- e) /\
    (2 * Z.abs (k * 2 ^ (- e) - Zpos m) = 2 ^ (- e) -> Zpos m < k * 2 ^ (- e)) /\
    Math.Round (S754_finite sg m e) =
      if k =? 0 then S754_zero sg else F64.of_Z (if sg then - k else k).
Proof.
  intros He. unfold Math.Round.
  destruct (Z.leb_spec 0 e) as [|_]; [lia|]. cbv zeta.
  set (d := 2 ^ (- e)).
  assert (Hd : 0 < d) by (apply Z.pow_pos_nonneg; lia).
  pose proof (Z.div_mod (Zpos m) d ltac:(lia)) as Hdm.
  pose proof (Z.mod_pos_bound (Zpos m) d Hd) as Hr.
  assert (Hq : 0 <= Zpos m / d) by (apply Z.div_pos; lia).
  set (q := Zpos m / d) in *. set (r := Zpos m mod d) in *.
  exists (if d <=? 2 * r then q + 1 else q).
  destruct (Z.leb_spec d (2 * r)).
  - repeat split; try reflexivity; nia.
  - repeat split; try reflexivity; nia.
Qed.

Lemma round5_rounded (x : float64) : rounded_to_5_decimals x (round5 x).
Proof.
  unfold rounded_to_5_decimals, round5. cbv zeta.
  destruct (x * F64.of_Z 100000)%f64 as [sg|sg| |sg m e] eqn:Ep; try reflexivity.
  destruct (Z.ltb_spec e 0) as [He|He].
  - destruct (Round_nearest sg m e He) as (k & H0 & Hnear & Htie & ->).
    exists k. repeat split; assumption.
  - unfold Math.Round. destruct (Z.leb_spec 0 e); [reflexivity | lia].
Qed.

(** C4 (amended).  With both coordinates present, the GPS record is
    absent unless the latitude reference is N or S and the longitude
    reference is E or W (in either case); a recognised letter on the wrong
    axis is rejected like any other value.  Otherwise the latitude is
    multiplied by -1 exactly for S, the longitude exactly for W, and both
    are rounded to 5 decimals: each is the quotient by 100000 of the
    integer nearest to 100000 times the signed coordinate. *)
Theorem populateGPSFields_references (s : bimg.EXIF) :
  bimg.GPSLatitude s <> "" -> bimg.GPSLongitude s <> "" ->
  let lat := parseGPSCoordinate (bimg.GPSLatitude s) in
  let lon := parseGPSCoordinate (bimg.GPSLongitude s) in
  let signed_lat :=
    (if is_one_of (bimg.GPSLatitudeRef s) ["S"; "s"] then lat * minus_one else lat)%f64 in
  let signed_lon :=
    (if is_one_of (bimg.GPSLongitudeRef s) ["W"; "w"] then lon * minus_one else lon)%f64 in
  (populateGPSFields s = None <->
     ~ (In (bimg.GPSLatitudeRef s) ["N"; "n"; "S"; "s"] /\
        In (bimg.GPSLongitudeRef s) ["E"; "e"; "W"; "w"])) /\
  (forall g, populateGPSFields s = Some g ->
     Latitude g = round5 signed_lat /\
     Longitude g = round5 signed_lon /\
     Latitude g = (Math.Round (signed_lat * F64.of_Z 100000) / F64.of_Z 100000)%f64 /\
     Longitude g = (Math.Round (signed_lon * F64.of_Z 100000) / F64.of_Z 100000)%f64 /\
     rounded_to_5_decimals signed_lat (Latitude g) /\
     rounded_to_5_decimals signed_lon (Longitude g)).
Proof.
  intros Hlat Hlon lat lon signed_lat signed_lon.
  rewrite (populateGPSFields_present s Hlat Hlon).
  fold latitude_refs longitude_refs.
  rewrite <- !is_one_of_In.
  destruct (is_one_of (bimg.GPSLatitudeRef s) latitude_refs);
    destruct (is_one_of (bimg.GPSLongitudeRef s) longitude_refs);
    cbn [andb]; split;
    try (intros g [= <-]; cbn [Latitude Longitude];
         refine (conj eq_refl (conj eq_refl (conj eq_refl (conj eq_refl (conj _ _)))));
         apply round5_rounded);
    try (intros g H; discriminate H);
    try (split; [intros _ [H1 H2]; discriminate | reflexivity]).
  split; [discriminate|]. intros H. exfalso. apply H. split; reflexivity.
Qed.

Lemma populateGPSFields_references_witness :
  exists g,
    populateGPSFields (sample 0 "" "40 26 46.3" "S" "73 58 12.0" "W") = Some g /\
    Latitude g = round5 (parseGPSCoordinate "40 26 46.3" * minus_one)%f64 /\
    Longitude g = round5 (parseGPSCoordinate "73 58 12.0" * minus_one)%f64 /\
    Latitude g = (F64.of_Z (-4044619) / F64.of_Z 100000)%f64 /\
    Longitude g = (F64.of_Z (-7397000) / F64.of_Z 100000)%f64.
Proof.
  eexists. split; [reflexivity|].
  destruct (proj2 (populateGPSFields_references
                     (sample 0 "" "40 26 46.3" "S" "73 58 12.0" "W")
                     ltac:(discriminate) ltac:(discriminate)) _ eq_refl)
    as (Hlat & Hlon & Hlat' & Hlon' & _).
  refine (conj Hlat (conj Hlon (conj _ _))).
  - rewrite Hlat'. vm_compute. reflexivity.
  - rewrite Hlon'. vm_compute. reflexivity.
Defined.

(** A coordinate whose product with 100000 overflows is not rounded: it
    comes out infinite. *)
Example round5_overflow :
  Strconv.ParseFloat "1e308" = Ok (F64.of_ratio false (10 ^ 308) 1) /\
  round5 (F64.of_ratio false (10 ^ 308) 1) = S754_infinity false.
Proof. split; vm_compute; reflexivity. Qed.

(** C4 as stated fails when a latitude reference is one of the four
    letters but not N or S: both references below are among the four
    letters, and no record is produced. *)
Lemma populateGPSFields_latitude_E :
  let s := sample 0 "" "40 26 46.3" "E" "73 58 12.0" "E" in
  bimg.GPSLatitude s <> "" /\ bimg.GPSLongitude s <> "" /\
  In (bimg.GPSLatitudeRef s) ["N"; "n"; "S"; "s"; "E"; "e"; "W"; "w"] /\
  In (bimg.GPSLongitudeRef s) ["N"; "n"; "S"; "s"; "E"; "e"; "W"; "w"] /\
  populateGPSFields s = None.
Proof.
  cbv zeta. refine (conj _ (conj _ (conj _ (conj _ _)))).
  - discriminate.
  - discriminate.
  - cbn. tauto.
  - cbn. tauto.
  - reflexivity.
Qed.

(** The coordinates of the specification's example, to 5 decimals. *)
Example populateGPSFields_south_west :
  option_map (fun g => (Latitude g, Longitude g))
    (populateGPSFields (sample 0 "" "40 26 46.3" "S" "73 58 12.0" "W")) =
  Some (F64.of_ratio true 4044619 100000, F64.of_ratio true 7397 100).
Proof. vm_compute. reflexivity. Qed.

(** ** Scalar formatters *)

(** C2.  [formatFloat] never reads its second argument: it always prints
    two decimals before trimming.  With [n = 2] the examples hold; with
    [n = 0] the decimal point stays, and with [n = 1] two decimals do. *)
Theorem formatFloat_ignores_n :
  (forall v n, formatFloat v n = formatFloat v 2) /\
  formatFloat (F64.of_Z 3) 2 = "3" /\
  formatFloat (F64.of_decimal 31 1) 2 = "3.1" /\
  formatFloat (F64.of_decimal 15 1) 0 = "1.5" /\
  formatFloat (F64.of_decimal 125 2) 1 = "1.25".
Proof. repeat split; vm_compute; reflexivity. Qed.

(** Where [formatHumanRational] takes each branch. *)
Lemma formatHumanRational_cases (val : string) :
  let f := parseEXIFRationalOrLogError val in
  ((f == F64.zero)%f64 = true -> formatHumanRational val = "0") /\
  ((f == F64.zero)%f64 = false -> (f >= F64.of_decimal 3 1)%f64 = true ->
   formatHumanRational val = formatFloat f 2).
Proof.
  cbv zeta. unfold formatHumanRational. split.
  - intros ->. reflexivity.
  - intros -> ->. reflexivity.
Qed.

(** C5.  The two examples of the specification hold.  On "-1/4" the value
    is -0.25 and its inverse -4, but the denominator printed is
    [int(0.5 + -4) = -3]: adding one half and truncating rounds only
    positive numbers. *)
Theorem formatHumanRational_examples :
  formatHumanRational "1/250" = "1/250" /\
  formatHumanRational "3/10" = "0.3" /\
  parseEXIFRational "-1/4" = (F64.of_ratio true 1 4, None) /\
  Math.Round (F64.of_Z 1 / F64.of_ratio true 1 4)%f64 = F64.of_Z (-4) /\
  formatHumanRational "-1/4" = "1/-3".
Proof. repeat split; vm_compute; reflexivity. Qed.

(** ** Flash *)

Lemma flashFired_bit0 (code : Z) : flashFired code = Z.testbit code 0.
Proof.
  unfold flashFired. change 1 with (Z.ones 1) at 1.
  rewrite Z.land_ones by lia. rewrite Z.bit0_odd, Zmod_odd.
  destruct (Z.odd code); reflexivity.
Qed.

Lemma flashMode_default (code : Z) :
  existsb (Z.eqb code) flash_codes = false ->
  flashMode code = any_bool (flashFired code).
Proof.
  intros H. unfold flashMode.
  destruct code as [|p|p]; [discriminate H | | reflexivity].
  repeat first
    [ reflexivity
    | progress cbn in H; discriminate H
    | destruct p as [p|p|] ].
Qed.

(** C6 (amended).  The fired flag is bit 0 of the code, for every code.
    A code outside the table has the flag itself as its label.  Code 0x19
    is fired with the label "Auto, Fired" (it is code 0x09 that reads
    "On, Fired"), and code 0x02 is not fired with the label [false]. *)
Theorem flash_decoding :
  (forall s, Flash (ParseEXIFFromBimg s) = Z.testbit (bimg.Flash s) 0) /\
  (forall s, ~ In (bimg.Flash s) flash_codes ->
     FlashMode (ParseEXIFFromBimg s) = any_bool (Z.testbit (bimg.Flash s) 0)) /\
  (let res := ParseEXIFFromBimg (sample 0x19 "" "" "" "" "") in
   Flash res = true /\ FlashMode res = any_string "Auto, Fired") /\
  FlashMode (ParseEXIFFromBimg (sample 0x09 "" "" "" "" "")) = any_string "On, Fired" /\
  (let res := ParseEXIFFromBimg (sample 0x02 "" "" "" "" "") in
   Flash res = false /\ FlashMode res = any_bool false).
Proof.
  refine (conj _ (conj _ (conj _ (conj _ _)))).
  - intros s. apply flashFired_bit0.
  - intros s H. cbn [FlashMode ParseEXIFFromBimg].
    rewrite <- flashFired_bit0. apply flashMode_default.
    destruct (existsb _ _) eqn:E; [|reflexivity].
    apply existsb_exists in E as (c & Hc & E). apply Z.eqb_eq in E.
    subst c. contradiction.
  - split; reflexivity.
  - reflexivity.
  - split; reflexivity.
Qed.

Lemma flash_decoding_witness :
  FlashMode (ParseEXIFFromBimg (sample 0x03 "" "" "" "" "")) = any_bool true.
Proof.
  apply (proj1 (proj2 flash_decoding) (sample 0x03 "" "" "" "" "")).
  cbn. intros H. repeat (destruct H as [H|H]; [discriminate H|]). exact H.
Defined.

(** C6 as stated fails at code 0x19, whose label is not "On, Fired". *)
Lemma flash_0x19_is_not_On_Fired :
  FlashMode (ParseEXIFFromBimg (sample 0x19 "" "" "" "" "")) <> any_string "On, Fired".
Proof. discriminate. Qed.

(** ** The members of the JSON object *)

Section Keys.

Variables k key : string.

Local Ltac by_cases :=
  intros H;
  repeat match goal with
    | H : context [if ?b then _ else _] |- _ => destruct b
    | H : context [match ?x with _ => _ end] |- _ => destruct x
    end;
  cbn in H; intuition congruence.

Lemma omitempty_string_key v : In k (Json.keys (Json.omitempty_string key v)) -> k = key.
Proof. unfold Json.omitempty_string. by_cases. Qed.

Lemma omitempty_int_key n : In k (Json.keys (Json.omitempty_int key n)) -> k = key.
Proof. unfold Json.omitempty_int. by_cases. Qed.

Lemma omitempty_bool_key b : In k (Json.keys (Json.omitempty_bool key b)) -> k = key.
Proof. unfold Json.omitempty_bool. by_cases. Qed.

Lemma omitempty_any_key a : In k (Json.keys (Json.omitempty_any key a)) -> k = key.
Proof. unfold Json.omitempty_any. by_cases. Qed.

Lemma omitempty_ints_key l : In k (Json.keys (Json.omitempty_ints key l)) -> k = key.
Proof. unfold Json.omitempty_ints. by_cases. Qed.

Lemma omitempty_gps_key g : In k (Json.keys (Json.omitempty_gps key g)) -> k = key.
Proof. unfold Json.omitempty_gps. by_cases. Qed.

End Keys.

Lemma keys_app (k : string) (a b : list (string * Json.value)) :
  In k (Json.keys (a ++ b)) <-> In k (Json.keys a) \/ In k (Json.keys b).
Proof. unfold Json.keys. rewrite map_app. apply in_app_iff. Qed.

(** A key of the object is the key of one of its members' tags; [H] is
    split into the member the key comes from. *)
Ltac member_of H :=
  unfold Json.exif_fields in H;
  repeat (apply keys_app in H; destruct H as [H|H]);
  try solve
    [ match type of H with
      | In _ (Json.keys (Json.omitempty_string _ _)) => apply omitempty_string_key in H
      | In _ (Json.keys (Json.omitempty_int _ _)) => apply omitempty_int_key in H
      | In _ (Json.keys (Json.omitempty_bool _ _)) => apply omitempty_bool_key in H
      | In _ (Json.keys (Json.omitempty_any _ _)) => apply omitempty_any_key in H
      | In _ (Json.keys (Json.omitempty_ints _ _)) => apply omitempty_ints_key in H
      | In _ (Json.keys (Json.omitempty_gps _ _)) => apply omitempty_gps_key in H
      end; discriminate H ].

(** The member the key comes from, at its place in the object. *)
Ltac member_at tac :=
  unfold Json.exif_fields;
  repeat first [ apply keys_app; left; solve [tac] | apply keys_app; right ].

Lemma exposureProgram_absent (e : EXIF) :
  ExposureProgram e = nil -> ~ In "exposureProgram" (Json.keys (Json.exif_fields e)).
Proof. intros Hnil H. member_of H. rewrite Hnil in H. exact H. Qed.

Lemma meteringMode_absent (e : EXIF) :
  MeteringMode e = nil -> ~ In "meteringMode" (Json.keys (Json.exif_fields e)).
Proof. intros Hnil H. member_of H. rewrite Hnil in H. exact H. Qed.

Lemma compression_absent (e : EXIF) :
  Compression e = nil -> ~ In "compression" (Json.keys (Json.exif_fields e)).
Proof. intros Hnil H. member_of H. rewrite Hnil in H. exact H. Qed.

Lemma colorSpace_absent (e : EXIF) :
  ColorSpace e = nil -> ~ In "colorSpace" (Json.keys (Json.exif_fields e)).
Proof. intros Hnil H. member_of H. rewrite Hnil in H. exact H. Qed.

Lemma sensingMethod_absent (e : EXIF) :
  SensingMethod e = nil -> ~ In "sensingMethod" (Json.keys (Json.exif_fields e)).
Proof. intros Hnil H. member_of H. rewrite Hnil in H. exact H. Qed.

Lemma exposureMode_absent (e : EXIF) :
  ExposureMode e = nil -> ~ In "exposureMode" (Json.keys (Json.exif_fields e)).
Proof. intros Hnil H. member_of H. rewrite Hnil in H. exact H. Qed.

Lemma flash_absent (e : EXIF) :
  Flash e = false -> ~ In "flash" (Json.keys (Json.exif_fields e)).
Proof. intros Hfalse H. member_of H. rewrite Hfalse in H. exact H. Qed.

Lemma flashMode_present (e : EXIF) :
  FlashMode e <> nil -> In "flashMode" (Json.keys (Json.exif_fields e)).
Proof.
  intros H.
  member_at ltac:(destruct (FlashMode e); [contradiction | left; reflexivity ..]).
Qed.

Lemma flashMode_not_nil (code : Z) : flashMode code <> nil.
Proof.
  unfold flashMode. destruct code as [|p|p]; try discriminate.
  repeat first [ discriminate | destruct p as [p|p|] ].
Qed.

(** ** The enumerations *)

(** C7.  A code that is zero or negative leaves each of the six
    enumerations unset, and without a member in the JSON object.  The
    flash mode is set for every code, 0 included. *)
Theorem enumerations_skipped (s : bimg.EXIF) :
  let res := ParseEXIFFromBimg s in
  (bimg.ExposureProgram s <= 0 ->
     ExposureProgram res = nil /\ ~ In "exposureProgram" (Json.keys (Json.exif_fields res))) /\
  (bimg.MeteringMode s <= 0 ->
     MeteringMode res = nil /\ ~ In "meteringMode" (Json.keys (Json.exif_fields res))) /\
  (bimg.Compression s <= 0 ->
     Compression res = nil /\ ~ In "compression" (Json.keys (Json.exif_fields res))) /\
  (bimg.ColorSpace s <= 0 ->
     ColorSpace res = nil /\ ~ In "colorSpace" (Json.keys (Json.exif_fields res))) /\
  (bimg.SensingMethod s <= 0 ->
     SensingMethod res = nil /\ ~ In "sensingMethod" (Json.keys (Json.exif_fields res))) /\
  (bimg.ExposureMode s <= 0 ->
     ExposureMode res = nil /\ ~ In "exposureMode" (Json.keys (Json.exif_fields res))) /\
  (FlashMode res <> nil /\ In "flashMode" (Json.keys (Json.exif_fields res))) /\
  (bimg.Flash s = 0 -> FlashMode res = any_string "No Flash").
Proof.
  cbv zeta.
  assert (Hwhen : forall code f, code <= 0 -> when (0 <? code) nil (f code) = nil).
  { intros code f H. unfold when. destruct (Z.ltb_spec 0 code); [lia | reflexivity]. }
  refine (conj _ (conj _ (conj _ (conj _ (conj _ (conj _ (conj _ _))))))).
  - intros H. apply (Hwhen _ exposureProgram) in H.
    split; [exact H | apply exposureProgram_absent, H].
  - intros H. apply (Hwhen _ meteringMode) in H.
    split; [exact H | apply meteringMode_absent, H].
  - intros H. apply (Hwhen _ compression) in H.
    split; [exact H | apply compression_absent, H].
  - intros H. apply (Hwhen _ colorSpace) in H.
    split; [exact H | apply colorSpace_absent, H].
  - intros H. apply (Hwhen _ sensingMethod) in H.
    split; [exact H | apply sensingMethod_absent, H].
  - intros H. apply (Hwhen _ exposureMode) in H.
    split; [exact H | apply exposureMode_absent, H].
  - split; [| apply flashMode_present]; apply flashMode_not_nil.
  - intros H. cbn [FlashMode ParseEXIFFromBimg]. rewrite H. reflexivity.
Qed.

Lemma enumerations_skipped_witness :
  let res := ParseEXIFFromBimg (sample 0 "" "" "" "" "") in
  Compression res = nil /\ ~ In "compression" (Json.keys (Json.exif_fields res)).
Proof.
  apply (proj1 (proj2 (proj2 (enumerations_skipped (sample 0 "" "" "" "" ""))))).
  cbn. lia.
Defined.

Lemma Marshal_members (e : EXIF) (members : list (string * Json.value)) :
  Json.Marshal e = Some members -> members = Json.exif_fields e.
Proof.
  unfold Json.Marshal. destruct (GPS e) as [g|]; [|congruence].
  destruct (_ && _); congruence.
Qed.

Lemma Marshal_without_GPS (e : EXIF) :
  GPS e = None -> Json.Marshal e = Some (Json.exif_fields e).
Proof. unfold Json.Marshal. intros ->. reflexivity. Qed.

(** C10.  When bit 0 of the flash code is clear, the JSON object has no
    "flash" member, although it has a "flashMode" member: whatever
    [json.Marshal] returns lacks the one and has the other, and it does
    return an object when there is no GPS record. *)
Theorem flash_false_is_omitted (s : bimg.EXIF) :
  Z.testbit (bimg.Flash s) 0 = false ->
  let res := ParseEXIFFromBimg s in
  ~ In "flash" (Json.keys (Json.exif_fields res)) /\
  In "flashMode" (Json.keys (Json.exif_fields res)) /\
  (forall members, Json.Marshal res = Some members ->
     ~ In "flash" (Json.keys members) /\ In "flashMode" (Json.keys members)) /\
  (GPS res = None -> Json.Marshal res = Some (Json.exif_fields res)).
Proof.
  intros Hbit res.
  assert (Hflash : Flash res = false).
  { unfold res. cbn [Flash ParseEXIFFromBimg]. rewrite flashFired_bit0. exact Hbit. }
  assert (Hmode : FlashMode res <> nil) by apply flashMode_not_nil.
  refine (conj _ (conj _ (conj _ _))).
  - apply flash_absent, Hflash.
  - apply flashMode_present, Hmode.
  - intros members ->%Marshal_members. split.
    + apply flash_absent, Hflash.
    + apply flashMode_present, Hmode.
  - apply Marshal_without_GPS.
Qed.

Lemma flash_false_is_omitted_witness :
  Json.Marshal (ParseEXIFFromBimg (sample 0x10 "" "" "" "" "")) =
    Some [("flashMode", Json.Leaf (Json.Str "Off, Did not fire"))] /\
  ~ In "flash" (Json.keys (Json.exif_fields (ParseEXIFFromBimg (sample 0x02 "" "" "" "" "")))).
Proof.
  split; [reflexivity|].
  exact (proj1 (flash_false_is_omitted (sample 0x02 "" "" "" "" "") eq_refl)).
Defined.

(** ** Subject area *)

(** The loop writes the integers of the tokens, in order, from index [i]. *)
Lemma subjectArea_loop_spec (parts : list string) : forall (area : list Z) (i : nat),
  (i + length parts <= length area)%nat ->
  let '(area', j) := subjectArea_loop parts area i in
  take j area' = (take i area ++ omap Atoi_ok parts)%list.
Proof.
  induction parts as [|part parts IH]; intros area i Hlen.
  - cbn. rewrite app_nil_r. reflexivity.
  - cbn [subjectArea_loop omap list_omap]. unfold Atoi_ok at 1.
    cbn [length] in Hlen.
    destruct (Strconv.Atoi part) as [n|err].
    + specialize (IH (<[i := n]> area) (S i)).
      rewrite length_insert in IH. specialize (IH ltac:(lia)).
      destruct (subjectArea_loop parts (<[i := n]> area) (S i)) as [area' j].
      rewrite IH.
      rewrite (take_S_r _ _ n) by (apply list_lookup_insert_eq; lia).
      rewrite take_insert_ge by lia.
      rewrite <- app_assoc. reflexivity.
    + apply IH. lia.
Qed.

(** C8.  A non-empty subject area is split on spaces; unless the number of
    tokens is outside 2..4, in which case the field stays unset, the
    field holds the integers of the tokens that parse, in order.  So
    "10 20 30 abc" gives 10, 20, 30. *)
Theorem subjectArea_parsed (s : bimg.EXIF) :
  bimg.SubjectArea s <> "" ->
  let parts := Strings.Split (bimg.SubjectArea s) " " in
  SubjectArea (ParseEXIFFromBimg s) =
    (if Nat.leb 2 (length parts) && Nat.leb (length parts) 4
     then Some (omap Atoi_ok parts)
     else None) /\
  subjectArea "10 20 30 abc" = Some [10; 20; 30].
Proof.
  intros Hne parts. split; [|reflexivity].
  cbn [SubjectArea ParseEXIFFromBimg].
  unfold subjectArea. apply String.eqb_neq in Hne. rewrite Hne. fold parts.
  destruct (Nat.leb 2 (length parts) && Nat.leb (length parts) 4); [|reflexivity].
  pose proof (subjectArea_loop_spec parts (replicate (length parts) 0) 0) as H.
  rewrite length_replicate in H. specialize (H ltac:(lia)).
  destruct (subjectArea_loop parts _ 0) as [area j].
  rewrite H. reflexivity.
Qed.

Lemma subjectArea_parsed_witness :
  SubjectArea (ParseEXIFFromBimg (sample 0 "7 x  -8" "" "" "" "")) = Some [7; -8].
Proof.
  exact (proj1 (subjectArea_parsed (sample 0 "7 x  -8" "" "" "" "") ltac:(discriminate))).
Defined.

(** ** The models on concrete values *)

Example TrimSpace_unicode :
  Strings.TrimSpace (Strings.bytes [194; 160; 32; 49; 47; 50; 9; 226; 128; 168]%nat) = "1/2".
Proof. reflexivity. Qed.

Example ParseFloat_tenth :
  Strconv.ParseFloat "0.1" = Ok (S754_finite false 0x1999999999999a (-56)).
Proof. vm_compute. reflexivity. Qed.

Example ParseFloat_forms :
  Strconv.ParseFloat "1_0.5e1" = Ok (F64.of_Z 105) /\
  Strconv.ParseFloat "0x1p-2" = Ok (F64.of_ratio false 1 4) /\
  Strconv.ParseFloat "-Infinity" = Ok (S754_infinity true) /\
  Strconv.ParseFloat "1e400" = Err (NumError "ParseFloat" "1e400" ErrRange) /\
  Strconv.ParseFloat " 1" = Err (NumError "ParseFloat" " 1" ErrSyntax).
Proof. repeat split; vm_compute; reflexivity. Qed.

Example FormatFloat_halves_to_even :
  Strconv.FormatFloat_f (F64.of_ratio false 1 8) 2 = "0.12" /\
  Strconv.FormatFloat_f (F64.of_ratio false 3 8) 2 = "0.38" /\
  Strconv.FormatFloat_f (F64.of_ratio true 1 1000) 2 = "-0.00".
Proof. repeat split; vm_compute; reflexivity. Qed.

Example Pow_60 :
  Math.Pow (F64.of_Z 60) 2 = F64.of_Z 3600 /\
  Math.Pow (F64.of_Z 60) 3 = F64.of_Z 216000.
Proof. split; vm_compute; reflexivity. Qed.

Example formatDateTime_examples :
  formatDateTime "2023:06:15 10:30:00" = "2023-06-15T10:30:00" /\
  formatDateTime "garbage" = "".
Proof. split; vm_compute; reflexivity. Qed.

Example compression_examples :
  compression 99 = any_string "JPEG" /\ compression 40000 = any_int 40000.
Proof. split; reflexivity. Qed.

(** * Further properties *)

(** ** The rational parser *)

Lemma parseEXIFRational_error_zero (v : string) (err : error) :
  snd (parseEXIFRational v) = Some err ->
  fst (parseEXIFRational v) = F64.zero /\
  parseEXIFRationalOrLogError v = F64.zero.
Proof.
  unfold parseEXIFRationalOrLogError, parseEXIFRational.
  repeat match goal with
    | |- context [if ?b then _ else _] => destruct b
    | |- context [match ?r with Ok _ => _ | Err _ => _ end] => destruct r
    end; cbn [fst snd]; intros H; try discriminate H; split; reflexivity.
Qed.

(** X1.  Whenever [parseEXIFRational] returns an error, the value it
    returns with it is 0; so the lenient wrapper yields 0 on every input
    that does not parse. *)
Theorem parseEXIFRational_error_value (v : string) (err : error) :
  snd (parseEXIFRational v) = Some err ->
  fst (parseEXIFRational v) = F64.zero /\
  parseEXIFRationalOrLogError v = F64.zero.
Proof. apply parseEXIFRational_error_zero. Qed.

Lemma parseEXIFRational_error_value_witness :
  parseEXIFRationalOrLogError "1/x" = F64.zero.
Proof.
  apply (parseEXIFRational_error_value "1/x" (NumError "ParseFloat" "x" ErrSyntax)).
  reflexivity.
Defined.

Section Trimming.

Variable pats : list (list ascii).
Hypothesis pats_nonempty : Forall (fun p => p <> []) pats.

Lemma strip_prefix_app (p l r : list ascii) :
  Strings.strip_prefix p l = Some r -> l = (p ++ r)%list.
Proof.
  revert l. induction p as [|a p IH]; intros l H.
  - cbn in H. injection H as ->. reflexivity.
  - destruct l as [|b l]; cbn in H; [discriminate|].
    destruct (Ascii.eqb_spec a b) as [->|]; [|discriminate].
    cbn. f_equal. apply IH, H.
Qed.

Lemma strip_prefix_longer (p l r k : list ascii) :
  Strings.strip_prefix p l = Some r ->
  Strings.strip_prefix p (l ++ k) = Some (r ++ k)%list.
Proof.
  revert l. induction p as [|a p IH]; intros l H.
  - cbn in H |- *. injection H as ->. reflexivity.
  - destruct l as [|b l]; cbn in H |- *; [discriminate|].
    destruct (Ascii.eqb a b); [apply IH, H | discriminate].
Qed.

Lemma strip_space_shorter (l r : list ascii) :
  Strings.strip_space pats l = Some r -> (length r < length l)%nat.
Proof.
  induction pats as [|p ps IH]; cbn; [discriminate|].
  apply Forall_cons in pats_nonempty as [Hp Hps].
  destruct (Strings.strip_prefix p l) as [r'|] eqn:E; [|exact (IH Hps)].
  intros [= ->]. apply strip_prefix_app in E as ->.
  rewrite length_app. destruct p; [congruence | cbn; lia].
Qed.

Lemma strip_space_suffix (l r : list ascii) :
  Strings.strip_space pats l = Some r -> exists p, l = (p ++ r)%list.
Proof.
  clear pats_nonempty. induction pats as [|p ps IH]; cbn; [discriminate|].
  destruct (Strings.strip_prefix p l) as [r'|] eqn:E; [|exact IH].
  intros [= ->]. exists p. apply strip_prefix_app, E.
Qed.

Lemma strip_space_longer (l r k : list ascii) :
  Strings.strip_space pats l = Some r ->
  exists r', Strings.strip_space pats (l ++ k) = Some r'.
Proof.
  clear pats_nonempty. induction pats as [|p ps IH]; cbn; [discriminate|].
  destruct (Strings.strip_prefix p l) as [r'|] eqn:E.
  - intros _. rewrite (strip_prefix_longer _ _ _ k E). eauto.
  - intros H. destruct (Strings.strip_prefix p (l ++ k)); eauto.
Qed.

Lemma strip_space_nil : Strings.strip_space pats [] = None.
Proof.
  induction pats as [|p ps IH]; [reflexivity|].
  apply Forall_cons in pats_nonempty as [Hp Hps].
  cbn. destruct p; [congruence | exact (IH Hps)].
Qed.

(** With enough fuel, nothing is left to strip. *)
Lemma trim_left_done (fuel : nat) : forall l,
  (length l <= fuel)%nat ->
  Strings.strip_space pats (Strings.trim_left pats fuel l) = None.
Proof.
  induction fuel as [|fuel IH]; intros l Hlen; cbn.
  - destruct l; [apply strip_space_nil | cbn in Hlen; lia].
  - destruct (Strings.strip_space pats l) as [r|] eqn:E; [|exact E].
    apply IH. apply strip_space_shorter in E. lia.
Qed.

Lemma trim_left_fixpoint (fuel : nat) (l : list ascii) :
  Strings.strip_space pats l = None -> Strings.trim_left pats fuel l = l.
Proof. intros H. destruct fuel; cbn; [|rewrite H]; reflexivity. Qed.

Lemma trim_left_suffix (fuel : nat) : forall l,
  exists p, l = (p ++ Strings.trim_left pats fuel l)%list.
Proof.
  induction fuel as [|fuel IH]; intros l; cbn; [exists []; reflexivity|].
  destruct (Strings.strip_space pats l) as [r|] eqn:E; [|exists []; reflexivity].
  apply strip_space_suffix in E as [p ->]. destruct (IH r) as [q Hq].
  exists (p ++ q)%list. rewrite <- app_assoc, <- Hq. reflexivity.
Qed.

End Trimming.

Lemma White_Space_nonempty : Forall (fun p => p <> []) Strings.White_Space.
Proof. cbv [Strings.White_Space map]. repeat (constructor; [discriminate|]). constructor. Qed.

Lemma White_Space_rev_nonempty :
  Forall (fun p => p <> []) (map (@rev ascii) Strings.White_Space).
Proof. cbv [Strings.White_Space map rev app]. repeat (constructor; [discriminate|]). constructor. Qed.

(** A trimmed text has no white space left at either end. *)
Lemma TrimSpace_list_fixpoint (l : list ascii) :
  let t := Strings.TrimRightSpace (Strings.TrimLeftSpace l) in
  Strings.TrimLeftSpace t = t /\ Strings.TrimRightSpace t = t.
Proof.
  cbv zeta. unfold Strings.TrimRightSpace.
  set (a := Strings.TrimLeftSpace l).
  set (rp := map (@rev ascii) Strings.White_Space).
  set (u := Strings.trim_left rp (length a) (rev a)).
  assert (Hu : Strings.strip_space rp u = None).
  { apply trim_left_done; [apply White_Space_rev_nonempty | rewrite length_rev; lia]. }
  assert (Ha : Strings.strip_space Strings.White_Space a = None).
  { apply trim_left_done; [apply White_Space_nonempty | lia]. }
  destruct (trim_left_suffix rp (length a) (rev a)) as [p Hp]. fold u in Hp.
  assert (Hsplit : a = (rev u ++ rev p)%list).
  { rewrite <- rev_app_distr, <- Hp, rev_involutive. reflexivity. }
  split.
  - apply trim_left_fixpoint.
    destruct (Strings.strip_space Strings.White_Space (rev u)) as [r|] eqn:E; [|reflexivity].
    destruct (strip_space_longer _ _ _ (rev p) E) as [r' Hr'].
    rewrite <- Hsplit in Hr'. congruence.
  - rewrite rev_involutive. fold rp. rewrite trim_left_fixpoint by exact Hu. reflexivity.
Qed.

Lemma TrimSpace_idempotent (v : string) :
  Strings.TrimSpace (Strings.TrimSpace v) = Strings.TrimSpace v.
Proof.
  unfold Strings.TrimSpace. rewrite list_ascii_of_string_of_list_ascii.
  destruct (TrimSpace_list_fixpoint (list_ascii_of_string v)) as [-> ->].
  reflexivity.
Qed.

(** X2.  White space around the input does not matter: an input and its
    trimmed form parse alike, and so do an input and the input after a space. *)
Theorem parseEXIFRational_trimmed (v : string) :
  parseEXIFRational (Strings.TrimSpace v) = parseEXIFRational v /\
  parseEXIFRational (" " ++ v) = parseEXIFRational v.
Proof.
  split.
  - unfold parseEXIFRational. rewrite TrimSpace_idempotent. reflexivity.
  - unfold parseEXIFRational.
    replace (Strings.TrimSpace (" " ++ v)) with (Strings.TrimSpace v)
      by reflexivity.
    reflexivity.
Qed.

(** X3.  An input without a slash is read as one number: the value and
    the error are those of [strconv.ParseFloat] on the trimmed text. *)
Theorem parseEXIFRational_plain (v : string) :
  Strings.TrimSpace v <> "" ->
  Strings.Count (Strings.TrimSpace v) "/" = O ->
  match Strconv.ParseFloat (Strings.TrimSpace v) with
  | Ok num => parseEXIFRational v = (num, None)
  | Err err => parseEXIFRational v = (F64.zero, Some err)
  end.
Proof.
  intros Hne Hcount. rewrite (parseEXIFRational_number v Hne Hcount).
  destruct (Strconv.ParseFloat _); reflexivity.
Qed.

Lemma parseEXIFRational_plain_witness :
  parseEXIFRational " 2.8 " = (F64.of_decimal 28 1, None).
Proof.
  exact (parseEXIFRational_plain " 2.8 " ltac:(discriminate) eq_refl).
Defined.

(** ** [formatFloat] *)

Lemma string_of_list_ascii_app (a b : list ascii) :
  string_of_list_ascii (a ++ b) = string_of_list_ascii a ++ string_of_list_ascii b.
Proof. induction a as [|c a IH]; [reflexivity|]. cbn. rewrite IH. reflexivity. Qed.

Lemma string_of_list_ascii_length (a : list ascii) :
  String.length (string_of_list_ascii a) = length a.
Proof. induction a as [|c a IH]; [reflexivity|]. cbn. rewrite IH. reflexivity. Qed.

Section Cutset.

Variable cutset : string.

Lemma drop_while_in_head (l : list ascii) :
  match Strings.drop_while_in cutset l with
  | [] => True
  | c :: _ => Strings.in_cutset c cutset = false
  end.
Proof.
  induction l as [|c l IH]; cbn; [exact I|].
  destruct (Strings.in_cutset c cutset) eqn:E; [exact IH | exact E].
Qed.

Lemma drop_while_in_keep (c : ascii) (l : list ascii) :
  Strings.in_cutset c cutset = false ->
  Strings.drop_while_in cutset (c :: l) = c :: l.
Proof. intros H. cbn. rewrite H. reflexivity. Qed.

Lemma drop_while_in_app (a b : list ascii) :
  Strings.drop_while_in cutset (a ++ b) =
    match Strings.drop_while_in cutset a with
    | [] => Strings.drop_while_in cutset b
    | k => (k ++ b)%list
    end.
Proof.
  induction a as [|c a IH]; cbn; [reflexivity|].
  destruct (Strings.in_cutset c cutset); [exact IH | reflexivity].
Qed.

Lemma drop_while_in_suffix (l : list ascii) :
  exists p, l = (p ++ Strings.drop_while_in cutset l)%list.
Proof.
  induction l as [|c l [p IH]]; cbn; [exists []; reflexivity|].
  destruct (Strings.in_cutset c cutset); [|exists []; reflexivity].
  exists (c :: p). cbn. f_equal. exact IH.
Qed.

End Cutset.

(** The bytes of [formatFloat v n], last byte first. *)
Lemma formatFloat_rev (v : float64) (n : Z) :
  list_ascii_of_string (formatFloat v n) =
    rev (Strings.drop_while_in "."
           (Strings.drop_while_in "0"
              (rev (list_ascii_of_string (Strconv.FormatFloat_f v 2))))).
Proof.
  unfold formatFloat, Strings.TrimRight.
  rewrite !list_ascii_of_string_of_list_ascii, rev_involutive. reflexivity.
Qed.

Lemma is_digit_mod10 (n : Z) :
  Strconv.is_digit (ascii_of_N (Z.to_N (48 + n mod 10))) = true.
Proof.
  pose proof (Z.mod_pos_bound n 10 ltac:(lia)) as H.
  assert (n mod 10 = 0 \/ n mod 10 = 1 \/ n mod 10 = 2 \/ n mod 10 = 3 \/
          n mod 10 = 4 \/ n mod 10 = 5 \/ n mod 10 = 6 \/ n mod 10 = 7 \/
          n mod 10 = 8 \/ n mod 10 = 9) as Hcases by lia.
  repeat destruct Hcases as [-> | Hcases]; try reflexivity.
  rewrite Hcases. reflexivity.
Qed.

Lemma pos_digits_are_digits (fuel : nat) : forall n acc,
  Forall (fun c => Strconv.is_digit c = true) acc ->
  Forall (fun c => Strconv.is_digit c = true) (Strconv.pos_digits fuel n acc).
Proof.
  induction fuel as [|fuel IH]; intros n acc Hacc; cbn; [exact Hacc|].
  assert (Forall (fun c => Strconv.is_digit c = true)
            (ascii_of_N (Z.to_N (48 + n mod 10)) :: acc)) as H
    by (constructor; [apply is_digit_mod10 | exact Hacc]).
  destruct (n <? 10); [exact H | apply IH, H].
Qed.

Lemma pad_zeros_are_digits (width : nat) (n : Z) :
  Forall (fun c => Strconv.is_digit c = true) (Strconv.pad_zeros width (Strconv.utoa n)).
Proof.
  unfold Strconv.pad_zeros, Strconv.utoa. apply Forall_app. split.
  - induction (width - _)%nat; cbn; constructor; [reflexivity | assumption].
  - apply pos_digits_are_digits. constructor.
Qed.

Lemma pad_zeros_length (width : nat) (l : list ascii) :
  (width <= length (Strconv.pad_zeros width l))%nat.
Proof. unfold Strconv.pad_zeros. rewrite length_app, repeat_length. lia. Qed.

Lemma digit_is_not_point (c : ascii) :
  Strconv.is_digit c = true -> Strings.in_cutset c "." = false.
Proof.
  intros H. unfold Strings.in_cutset. cbn [list_ascii_of_string existsb].
  destruct (Ascii.eqb_spec c ".") as [->|]; [discriminate H | reflexivity].
Qed.

(** A finite number in fixed notation with two decimals: an optional
    sign, at least one digit, the point and two digits. *)
Lemma FormatFloat_f_finite (v : float64) :
  v <> S754_nan -> (forall s, v <> S754_infinity s) ->
  exists sg ip fp,
    list_ascii_of_string (Strconv.FormatFloat_f v 2) = (sg ++ ip ++ "."%char :: fp)%list /\
    ip <> [] /\ all_digits ip /\ all_digits fp /\ length fp = 2%nat.
Proof.
  assert (Hfixed : forall (s : bool) (scaled : Z),
    let ds := Strconv.pad_zeros 3 (Strconv.utoa scaled) in
    exists sg ip fp,
      ((if s then ["-"%char] else []) ++ take (length ds - 2) ds ++
       "."%char :: drop (length ds - 2) ds)%list = (sg ++ ip ++ "."%char :: fp)%list /\
      ip <> [] /\ all_digits ip /\ all_digits fp /\ length fp = 2%nat).
  { intros s scaled ds.
    assert (Hlen : (3 <= length ds)%nat) by apply pad_zeros_length.
    assert (Hdig : all_digits ds) by apply pad_zeros_are_digits.
    clearbody ds.
    eexists _, _, _. split; [reflexivity|].
    repeat split.
    - intros E. apply (f_equal (@length ascii)) in E.
      rewrite length_take in E. cbn [length] in E. lia.
    - apply Forall_take, Hdig.
    - apply Forall_drop, Hdig.
    - rewrite length_drop. lia. }
  intros Hnan Hinf. unfold Strconv.FormatFloat_f.
  destruct v as [s|s| |s m e]; [| destruct (Hinf s eq_refl) | congruence |];
    cbv zeta beta; rewrite list_ascii_of_string_of_list_ascii; apply Hfixed.
Qed.

(** What is left of such a number once the zeros and then the point are
    trimmed: the sign and the digits before the point, and the decimals
    up to the last one that is not 0. *)
Lemma trim_fixed (sg ip fp : list ascii) :
  ip <> [] -> all_digits ip -> all_digits fp ->
  rev (Strings.drop_while_in "."
         (Strings.drop_while_in "0" (rev (sg ++ ip ++ "."%char :: fp)))) =
    (sg ++ ip ++
     match Strings.drop_while_in "0" (rev fp) with
     | [] => []
     | k => "."%char :: rev k
     end)%list.
Proof.
  intros Hne Hip Hfp.
  replace (rev (sg ++ ip ++ "."%char :: fp))
    with (rev fp ++ "."%char :: (rev ip ++ rev sg))%list
    by (rewrite !rev_app_distr; cbn [rev]; rewrite <- !app_assoc; reflexivity).
  rewrite drop_while_in_app.
  destruct (Strings.drop_while_in "0" (rev fp)) as [|c k] eqn:Ek.
  - cbn [Strings.drop_while_in]. change (Strings.in_cutset "." "0") with false.
    cbv iota. cbn [Strings.drop_while_in]. change (Strings.in_cutset "." ".") with true.
    cbv iota.
    destruct (rev ip) as [|d r] eqn:Er.
    { apply (f_equal (@rev ascii)) in Er. rewrite rev_involutive in Er. contradiction. }
    assert (Hd : Strconv.is_digit d = true).
    { apply Forall_rev in Hip. rewrite Er in Hip. apply Forall_cons in Hip as [Hd _]. exact Hd. }
    cbn [app]. rewrite (drop_while_in_keep _ _ _ (digit_is_not_point _ Hd)).
    change (d :: r ++ rev sg)%list with ((d :: r) ++ rev sg)%list.
    rewrite <- Er, rev_app_distr, !rev_involutive, app_nil_r. reflexivity.
  - assert (Hc : Strconv.is_digit c = true).
    { destruct (drop_while_in_suffix "0" (rev fp)) as [p Hp]. rewrite Ek in Hp.
      apply Forall_rev in Hfp. rewrite Hp in Hfp.
      apply Forall_app in Hfp as [_ Hfp]. apply Forall_cons in Hfp as [Hc _]. exact Hc. }
    cbn [app]. rewrite (drop_while_in_keep _ _ _ (digit_is_not_point _ Hc)).
    change (c :: k ++ "."%char :: rev ip ++ rev sg)%list
      with ((c :: k) ++ "."%char :: (rev ip ++ rev sg))%list.
    rewrite rev_app_distr. cbn [rev]. rewrite rev_app_distr, !rev_involutive.
    rewrite <- !app_assoc. reflexivity.
Qed.

Lemma list_ascii_of_string_app (a b : string) :
  list_ascii_of_string (a ++ b) = (list_ascii_of_string a ++ list_ascii_of_string b)%list.
Proof. induction a as [|c a IH]; [reflexivity|]. rewrite append_cons. cbn. rewrite IH. reflexivity. Qed.

Lemma formatFloat_finite (v : float64) (n : Z) :
  v <> S754_nan -> (forall s, v <> S754_infinity s) ->
  exists sg ip fp k,
    list_ascii_of_string (Strconv.FormatFloat_f v 2) = (sg ++ ip ++ "."%char :: fp)%list /\
    ip <> [] /\ length fp = 2%nat /\ (length k <= 3)%nat /\
    list_ascii_of_string (formatFloat v n) = (sg ++ ip ++ k)%list.
Proof.
  intros Hnan Hinf.
  destruct (FormatFloat_f_finite v Hnan Hinf) as (sg & ip & fp & HL & Hne & Hip & Hfp & Hlen).
  exists sg, ip, fp. eexists. split; [exact HL|]. split; [exact Hne|]. split; [exact Hlen|].
  rewrite formatFloat_rev, HL, (trim_fixed sg ip fp Hne Hip Hfp).
  split; [|reflexivity].
  destruct (drop_while_in_suffix "0" (rev fp)) as [p Hp].
  apply (f_equal (@length ascii)) in Hp. rewrite length_rev, length_app in Hp.
  destruct (Strings.drop_while_in "0" (rev fp)) as [|c k]; cbn [length] in *; [lia|].
  rewrite length_rev. cbn [length]. lia.
Qed.

Lemma formatFloat_facts (v : float64) (n : Z) :
  formatFloat v n <> "" /\
  (forall s, formatFloat v n <> s ++ ".") /\
  (v <> S754_nan -> (forall s, v <> S754_infinity s) ->
   exists ip fp rest,
     Strconv.FormatFloat_f v 2 = ip ++ "." ++ fp /\ String.length fp = 2%nat /\
     ip <> "" /\
     formatFloat v n = ip ++ rest /\ (String.length rest <= 3)%nat).
Proof.
  assert (Hshape : v <> S754_nan -> (forall s, v <> S754_infinity s) ->
   exists ip fp rest,
     Strconv.FormatFloat_f v 2 = ip ++ "." ++ fp /\ String.length fp = 2%nat /\
     ip <> "" /\
     formatFloat v n = ip ++ rest /\ (String.length rest <= 3)%nat).
  { intros Hnan Hinf.
    destruct (formatFloat_finite v n Hnan Hinf) as (sg & ip & fp & k & HL & Hne & Hlen & Hk & HF).
    exists (string_of_list_ascii (sg ++ ip)), (string_of_list_ascii fp),
      (string_of_list_ascii k).
    rewrite !string_of_list_ascii_length.
    refine (conj _ (conj Hlen (conj _ (conj _ Hk)))).
    - rewrite <- (string_of_list_ascii_of_string (Strconv.FormatFloat_f v 2)), HL.
      rewrite app_assoc, string_of_list_ascii_app. reflexivity.
    - intros E. apply (f_equal list_ascii_of_string) in E.
      rewrite list_ascii_of_string_of_list_ascii in E.
      apply app_eq_nil in E as [_ E]. contradiction.
    - rewrite <- (string_of_list_ascii_of_string (formatFloat v n)), HF.
      rewrite app_assoc, string_of_list_ascii_app. reflexivity. }
  refine (conj _ (conj _ Hshape)).
  - destruct v as [s|[]| |s m e];
      [ | vm_compute; discriminate | vm_compute; discriminate
        | vm_compute; discriminate | ].
    + destruct (Hshape ltac:(discriminate) ltac:(discriminate))
        as (ip & fp & rest & _ & _ & Hip & -> & _).
      destruct ip; [contradiction | discriminate].
    + destruct (Hshape ltac:(discriminate) ltac:(discriminate))
        as (ip & fp & rest & _ & _ & Hip & -> & _).
      destruct ip; [contradiction | discriminate].
  - intros s E. apply (f_equal list_ascii_of_string) in E.
    rewrite formatFloat_rev, list_ascii_of_string_app in E.
    apply (f_equal (@rev ascii)) in E. rewrite rev_involutive, rev_app_distr in E.
    pose proof (drop_while_in_head "."
      (Strings.drop_while_in "0" (rev (list_ascii_of_string (Strconv.FormatFloat_f v 2)))))
      as H.
    rewrite E in H. discriminate H.
Qed.

(** X4.  [formatFloat] never returns an empty text and never one that
    ends in a point.  For a finite number it keeps everything that stands
    before the point, zeros included, and at most the point and two
    decimals after it. *)
Theorem formatFloat_shape (v : float64) (n : Z) :
  formatFloat v n <> "" /\
  (forall s, formatFloat v n <> s ++ ".") /\
  (v <> S754_nan -> (forall s, v <> S754_infinity s) ->
   exists ip fp rest,
     Strconv.FormatFloat_f v 2 = ip ++ "." ++ fp /\ String.length fp = 2%nat /\
     ip <> "" /\
     formatFloat v n = ip ++ rest /\ (String.length rest <= 3)%nat).
Proof. apply formatFloat_facts. Qed.

Lemma formatFloat_shape_witness :
  exists ip fp rest,
    Strconv.FormatFloat_f (F64.of_Z 100) 2 = ip ++ "." ++ fp /\ String.length fp = 2%nat /\
    ip <> "" /\
    formatFloat (F64.of_Z 100) 0 = ip ++ rest /\ (String.length rest <= 3)%nat.
Proof.
  apply (proj2 (proj2 (formatFloat_shape (F64.of_Z 100) 0))); discriminate.
Defined.

Example formatFloat_hundred : formatFloat (F64.of_Z 100) 0 = "100".
Proof. vm_compute. reflexivity. Qed.

(** ** The rational fields of the record *)

Lemma append_nonempty (a b : string) : a <> "" -> a ++ b <> "".
Proof. destruct a; [congruence | discriminate]. Qed.

Lemma formatHumanRational_nonempty (val : string) : formatHumanRational val <> "".
Proof.
  unfold formatHumanRational.
  destruct (_ == _)%f64; [discriminate|].
  destruct (_ >= _)%f64; [apply formatFloat_facts | discriminate].
Qed.

Lemma formatResolution_nonempty (resolution : string) (unit : Z) :
  formatResolution resolution unit <> "".
Proof.
  unfold formatResolution.
  pose proof (proj1 (formatFloat_facts (parseEXIFRationalOrLogError resolution) 2)) as H.
  destruct unit as [|[[]|[]|]|]; try exact H; apply append_nonempty, H.
Qed.

(** A member with a string value is there exactly when the string is not
    empty. *)
Ltac string_member :=
  split;
  [ intros H; member_of H; unfold Json.omitempty_string in H;
    match type of H with
    | context [String.eqb ?x ""] =>
        destruct (String.eqb_spec x ""); [destruct H | assumption]
    end
  | intros H; apply String.eqb_neq in H;
    member_at ltac:(unfold Json.omitempty_string; rewrite H; left; reflexivity) ].

Lemma fNumber_member (e : EXIF) :
  In "fNumber" (Json.keys (Json.exif_fields e)) <-> FNumber e <> "".
Proof. string_member. Qed.

Lemma exposureTime_member (e : EXIF) :
  In "exposureTime" (Json.keys (Json.exif_fields e)) <-> ExposureTime e <> "".
Proof. string_member. Qed.

Lemma shutterSpeedValue_member (e : EXIF) :
  In "shutterSpeedValue" (Json.keys (Json.exif_fields e)) <-> ShutterSpeedValue e <> "".
Proof. string_member. Qed.

Lemma apertureValue_member (e : EXIF) :
  In "apertureValue" (Json.keys (Json.exif_fields e)) <-> ApertureValue e <> "".
Proof. string_member. Qed.

Lemma brightnessValue_member (e : EXIF) :
  In "brightnessValue" (Json.keys (Json.exif_fields e)) <-> BrightnessValue e <> "".
Proof. string_member. Qed.

Lemma exposureCompensation_member (e : EXIF) :
  In "exposureCompensation" (Json.keys (Json.exif_fields e)) <-> ExposureCompensation e <> "".
Proof. string_member. Qed.

Lemma focalLength_member (e : EXIF) :
  In "focalLength" (Json.keys (Json.exif_fields e)) <-> FocalLength e <> "".
Proof. string_member. Qed.

Lemma xResolution_member (e : EXIF) :
  In "xResolution" (Json.keys (Json.exif_fields e)) <-> XResolution e <> "".
Proof. string_member. Qed.

Lemma yResolution_member (e : EXIF) :
  In "yResolution" (Json.keys (Json.exif_fields e)) <-> YResolution e <> "".
Proof. string_member. Qed.

Lemma dateTime_member (e : EXIF) :
  In "dateTime" (Json.keys (Json.exif_fields e)) <-> DateTime e <> "".
Proof. string_member. Qed.

Lemma dateTimeOriginal_member (e : EXIF) :
  In "dateTimeOriginal" (Json.keys (Json.exif_fields e)) <-> DateTimeOriginal e <> "".
Proof. string_member. Qed.

Lemma dateTimeDigitized_member (e : EXIF) :
  In "dateTimeDigitized" (Json.keys (Json.exif_fields e)) <-> DateTimeDigitized e <> "".
Proof. string_member. Qed.

Lemma malformed_is_nonempty (raw : string) :
  malformed raw -> nonempty raw = true /\ raw <> "0".
Proof.
  unfold malformed, nonempty. intros H. split.
  - destruct (String.eqb_spec raw "") as [->|]; [contradiction H|]; reflexivity.
  - intros ->. contradiction H. reflexivity.
Qed.

Lemma formatHumanRational_malformed (raw : string) :
  malformed raw -> formatHumanRational raw = "0".
Proof.
  unfold malformed. intros H.
  destruct (snd (parseEXIFRational raw)) as [err|] eqn:E; [|contradiction].
  unfold formatHumanRational.
  rewrite (proj2 (parseEXIFRational_error_zero raw err E)). reflexivity.
Qed.

Lemma formatFloat_malformed (raw : string) (n : Z) :
  malformed raw -> formatFloat (parseEXIFRationalOrLogError raw) n = "0".
Proof.
  unfold malformed. intros H.
  destruct (snd (parseEXIFRational raw)) as [err|] eqn:E; [|contradiction].
  rewrite (proj2 (parseEXIFRational_error_zero raw err E)). reflexivity.
Qed.

(** X5.  A rational field of the raw record that does not parse is not
    left out: it is reported as "0" (with the unit, for a resolution). *)
Theorem malformed_rationals_read_as_zero (s : bimg.EXIF) :
  let res := ParseEXIFFromBimg s in
  (malformed (bimg.FNumber s) -> FNumber res = "0") /\
  (malformed (bimg.ExposureTime s) -> ExposureTime res = "0") /\
  (malformed (bimg.ShutterSpeedValue s) -> ShutterSpeedValue res = "0") /\
  (malformed (bimg.ApertureValue s) -> ApertureValue res = "0") /\
  (malformed (bimg.BrightnessValue s) -> BrightnessValue res = "0") /\
  (malformed (bimg.ExposureBiasValue s) -> ExposureCompensation res = "0") /\
  (malformed (bimg.FocalLength s) -> FocalLength res = "0") /\
  (malformed (bimg.XResolution s) ->
     XResolution res = formatResolution "0" (bimg.ResolutionUnit s) /\
     (bimg.ResolutionUnit s = 2 -> XResolution res = "0 ppi") /\
     (bimg.ResolutionUnit s = 3 -> XResolution res = "0 ppcm")).
Proof.
  cbv zeta. cbn [ParseEXIFFromBimg FNumber ExposureTime ShutterSpeedValue ApertureValue
    BrightnessValue ExposureCompensation FocalLength XResolution].
  repeat match goal with
    | |- (malformed ?raw -> _) /\ _ => split
    end;
    intros H; destruct (malformed_is_nonempty _ H) as [Hne H0]; rewrite Hne;
    try (apply String.eqb_neq in H0; rewrite H0); cbn [when andb negb];
    try apply (formatHumanRational_malformed _ H);
    try apply (formatFloat_malformed _ _ H).
  unfold formatResolution. rewrite (formatFloat_malformed _ _ H).
  split; [reflexivity|]. split; intros ->; reflexivity.
Qed.

Lemma malformed_rationals_read_as_zero_witness :
  ExposureTime (ParseEXIFFromBimg (sample_exposure "1/" "")) = "0".
Proof.
  apply (proj1 (proj2 (malformed_rationals_read_as_zero (sample_exposure "1/" "")))).
  unfold malformed. vm_compute. discriminate.
Defined.

Lemma populateGPSFields_empty (s : bimg.EXIF) :
  bimg.GPSLatitude s = "" \/ bimg.GPSLongitude s = "" -> populateGPSFields s = None.
Proof.
  unfold populateGPSFields. intros [-> | ->]; [reflexivity|].
  rewrite orb_true_r. reflexivity.
Qed.

(** What [json.Marshal] returns is the list of the members, when it
    returns one: a key is in the object when it is in the list and the
    encoding succeeds. *)
Lemma has_member_keys (key : string) (e : EXIF) :
  has_member key e <->
  In key (Json.keys (Json.exif_fields e)) /\ Json.Marshal e <> None.
Proof.
  unfold has_member. split.
  - intros (members & Hm & Hin). rewrite (Marshal_members e members Hm) in Hin.
    split; [exact Hin | congruence].
  - intros [Hin Hm]. destruct (Json.Marshal e) as [members|] eqn:E; [|contradiction].
    exists members. split; [reflexivity|].
    rewrite (Marshal_members e members E). exact Hin.
Qed.

Lemma has_member_iff (key : string) (e : EXIF) (P : Prop) :
  (In key (Json.keys (Json.exif_fields e)) <-> P) ->
  (has_member key e <-> P /\ Json.Marshal e <> None).
Proof. intros H. rewrite has_member_keys, H. reflexivity. Qed.

(** Without a coordinate there is no GPS record, and nothing that
    [json.Marshal] refuses. *)
Lemma Marshal_without_coordinates (s : bimg.EXIF) :
  bimg.GPSLatitude s = "" \/ bimg.GPSLongitude s = "" ->
  Json.Marshal (ParseEXIFFromBimg s) <> None.
Proof.
  intros H. rewrite Marshal_without_GPS; [discriminate|].
  cbn [GPS ParseEXIFFromBimg]. apply populateGPSFields_empty, H.
Qed.

(** The keys of the rational fields among those of the record. *)
Lemma rational_keys (s : bimg.EXIF) :
  let members := Json.keys (Json.exif_fields (ParseEXIFFromBimg s)) in
  (In "fNumber" members <-> bimg.FNumber s <> "") /\
  (In "exposureTime" members <-> bimg.ExposureTime s <> "") /\
  (In "shutterSpeedValue" members <-> bimg.ShutterSpeedValue s <> "") /\
  (In "apertureValue" members <-> bimg.ApertureValue s <> "") /\
  (In "brightnessValue" members <-> bimg.BrightnessValue s <> "") /\
  (In "exposureCompensation" members <->
     bimg.ExposureBiasValue s <> "" /\ bimg.ExposureBiasValue s <> "0") /\
  (In "focalLength" members <-> bimg.FocalLength s <> "") /\
  (In "xResolution" members <-> bimg.XResolution s <> "") /\
  (In "yResolution" members <-> bimg.YResolution s <> "").
Proof.
  cbv zeta.
  rewrite fNumber_member, exposureTime_member, shutterSpeedValue_member,
    apertureValue_member, brightnessValue_member, exposureCompensation_member,
    focalLength_member, xResolution_member, yResolution_member.
  cbn [ParseEXIFFromBimg FNumber ExposureTime ShutterSpeedValue ApertureValue
    BrightnessValue ExposureCompensation FocalLength XResolution YResolution].
  unfold when, nonempty.
  repeat match goal with
    | |- _ /\ _ => split
    | |- context [String.eqb ?x ?y] => destruct (String.eqb_spec x y)
    end; cbn [negb andb]; split; intros H;
    try (intros; congruence); try tauto;
    try (apply formatHumanRational_nonempty);
    try (apply formatResolution_nonempty);
    try (apply formatFloat_facts);
    try (split; assumption).
  all: try (destruct H; congruence).
Qed.

(** X6.  In the object that [json.Marshal] returns for the result, each
    rational field has a member exactly when its raw text is not empty,
    whether or not the text parses; the exposure compensation also needs
    a raw text other than "0".  When [json.Marshal] fails there is no
    object, and so no member; it does not fail when a raw coordinate is
    empty. *)
Theorem rational_members (s : bimg.EXIF) :
  let res := ParseEXIFFromBimg s in
  let encoded := Json.Marshal res <> None in
  (has_member "fNumber" res <-> bimg.FNumber s <> "" /\ encoded) /\
  (has_member "exposureTime" res <-> bimg.ExposureTime s <> "" /\ encoded) /\
  (has_member "shutterSpeedValue" res <-> bimg.ShutterSpeedValue s <> "" /\ encoded) /\
  (has_member "apertureValue" res <-> bimg.ApertureValue s <> "" /\ encoded) /\
  (has_member "brightnessValue" res <-> bimg.BrightnessValue s <> "" /\ encoded) /\
  (has_member "exposureCompensation" res <->
     (bimg.ExposureBiasValue s <> "" /\ bimg.ExposureBiasValue s <> "0") /\ encoded) /\
  (has_member "focalLength" res <-> bimg.FocalLength s <> "" /\ encoded) /\
  (has_member "xResolution" res <-> bimg.XResolution s <> "" /\ encoded) /\
  (has_member "yResolution" res <-> bimg.YResolution s <> "" /\ encoded) /\
  (bimg.GPSLatitude s = "" \/ bimg.GPSLongitude s = "" -> encoded).
Proof.
  pose proof (rational_keys s) as H. cbv zeta in H.
  destruct H as (H1 & H2 & H3 & H4 & H5 & H6 & H7 & H8 & H9).
  cbv zeta.
  refine (conj _ (conj _ (conj _ (conj _ (conj _ (conj _ (conj _ (conj _ (conj _ _)))))))));
    first [ apply has_member_iff; assumption | apply Marshal_without_coordinates ].
Qed.

Lemma rational_members_witness :
  has_member "exposureTime" (ParseEXIFFromBimg (sample_exposure "1/" "")) /\
  ~ has_member "fNumber" (ParseEXIFFromBimg (sample_exposure "1/" "")).
Proof.
  pose proof (rational_members (sample_exposure "1/" "")) as H. cbv zeta in H.
  destruct H as (Hf & He & _ & _ & _ & _ & _ & _ & _ & Henc).
  split.
  - apply He. split; [discriminate | apply Henc; left; reflexivity].
  - intros H. apply Hf in H. destruct H as [H _]. apply H. reflexivity.
Defined.

(** ** Timestamps *)

Lemma zero_padded_2 (n : Z) :
  0 <= n < 100 ->
  exists a b,
    list_ascii_of_string (Time.zero_padded 2 n) = [a; b] /\
    Strconv.is_digit a = true /\ Strconv.is_digit b = true /\
    Strconv.digit_val a * 10 + Strconv.digit_val b = n.
Proof.
  intros Hn.
  assert (forallb (fun k =>
            match list_ascii_of_string (Time.zero_padded 2 (Z.of_nat k)) with
            | [a; b] =>
                Strconv.is_digit a && Strconv.is_digit b &&
                (Strconv.digit_val a * 10 + Strconv.digit_val b =? Z.of_nat k)
            | _ => false
            end) (seq 0 100) = true) as H by (vm_compute; reflexivity).
  rewrite forallb_forall in H. specialize (H (Z.to_nat n)).
  rewrite Z2Nat.id in H by lia.
  specialize (H ltac:(apply in_seq; lia)).
  destruct (list_ascii_of_string _) as [|a [|b [|]]]; try discriminate H.
  apply andb_prop in H as [H Hv]. apply andb_prop in H as [Ha Hb].
  exists a, b. repeat split; try assumption. apply Z.eqb_eq, Hv.
Qed.

Lemma zero_padded_4 (n : Z) :
  0 <= n <= 9999 ->
  exists a b c d,
    list_ascii_of_string (Time.zero_padded 4 n) = [a; b; c; d] /\
    forallb Strconv.is_digit [a; b; c; d] = true /\
    Strconv.digits_val 0 [a; b; c; d] = Some n.
Proof.
  intros Hn.
  assert (forallb (fun k =>
            match list_ascii_of_string (Time.zero_padded 4 (Z.of_nat k)) with
            | [a; b; c; d] =>
                forallb Strconv.is_digit [a; b; c; d] &&
                match Strconv.digits_val 0 [a; b; c; d] with
                | Some v => v =? Z.of_nat k
                | None => false
                end
            | _ => false
            end) (seq 0 (Z.to_nat 10000)) = true) as H by (vm_compute; reflexivity).
  rewrite forallb_forall in H. specialize (H (Z.to_nat n)).
  rewrite Z2Nat.id in H by lia.
  specialize (H ltac:(apply in_seq; lia)).
  destruct (list_ascii_of_string _) as [|a [|b [|c [|d [|]]]]]; try discriminate H.
  apply andb_prop in H as [Hd Hv].
  exists a, b, c, d. repeat split; try assumption.
  destruct (Strconv.digits_val 0 [a; b; c; d]) as [v|]; [|discriminate Hv].
  apply Z.eqb_eq in Hv. congruence.
Qed.

Lemma cutspace_digit (c : ascii) (l : list ascii) :
  Strconv.is_digit c = true -> Time.cutspace (c :: l) = c :: l.
Proof.
  intros H. destruct c as [[] [] [] [] [] [] [] []]; try reflexivity; discriminate H.
Qed.

Lemma skip_space_digit (c : ascii) (l : list ascii) :
  Strconv.is_digit c = true -> Time.skip_space (" "%char :: c :: l) = Some (c :: l).
Proof.
  intros H. unfold Time.skip_space.
  change (Time.cutspace (" "%char :: c :: l)) with (Time.cutspace (c :: l)).
  rewrite (cutspace_digit c l H). reflexivity.
Qed.

Lemma getnum_two (a b : ascii) (l : list ascii) (fixed : bool) :
  Strconv.is_digit a = true -> Strconv.is_digit b = true ->
  Time.getnum (a :: b :: l) fixed =
    Some (Strconv.digit_val a * 10 + Strconv.digit_val b, l).
Proof. intros Ha Hb. unfold Time.getnum. rewrite Ha, Hb. reflexivity. Qed.

Lemma Parse_exif_timestamp (t : Time.civil) :
  valid_civil t -> Time.Parse (exif_timestamp t) = Some t.
Proof.
  destruct t as [y mo d h mi sec]. unfold valid_civil.
  cbn [Time.year Time.month Time.day Time.hour Time.minute Time.second].
  intros (Hy & Hmo & Hd & Hh & Hmi & Hsec).
  assert (Hd31 : Time.daysIn mo y <= 31).
  { unfold Time.daysIn. destruct (_ && _); [lia|].
    assert (mo = 1 \/ mo = 2 \/ mo = 3 \/ mo = 4 \/ mo = 5 \/ mo = 6 \/ mo = 7 \/
            mo = 8 \/ mo = 9 \/ mo = 10 \/ mo = 11 \/ mo = 12) as Hc by lia.
    repeat (destruct Hc as [Hc|Hc]); subst mo; vm_compute; discriminate. }
  destruct (zero_padded_4 y Hy) as (y1 & y2 & y3 & y4 & Ey & Hyd & Hyv).
  destruct (zero_padded_2 mo ltac:(lia)) as (m1 & m2 & Em & Hm1 & Hm2 & Hmv).
  destruct (zero_padded_2 d ltac:(lia)) as (d1 & d2 & Ed & Hd1 & Hd2 & Hdv).
  destruct (zero_padded_2 h ltac:(lia)) as (h1 & h2 & Eh & Hh1 & Hh2 & Hhv).
  destruct (zero_padded_2 mi ltac:(lia)) as (i1 & i2 & Ei & Hi1 & Hi2 & Hiv).
  destruct (zero_padded_2 sec ltac:(lia)) as (s1 & s2 & Es & Hs1 & Hs2 & Hsv).
  unfold Time.Parse, exif_timestamp.
  cbn [Time.year Time.month Time.day Time.hour Time.minute Time.second].
  rewrite !list_ascii_of_string_app, Ey, Em, Ed, Eh, Ei, Es.
  cbn [list_ascii_of_string app length Nat.leb take drop].
  rewrite Hyd. cbn [andb Time.test mbind option_bind]. rewrite Hyv.
  cbn [mbind option_bind Time.skip_colon].
  rewrite (getnum_two m1 m2 _ _ Hm1 Hm2), Hmv. cbn [mbind option_bind Time.skip_colon].
  rewrite (getnum_two d1 d2 _ _ Hd1 Hd2), Hdv. cbn [mbind option_bind].
  rewrite (skip_space_digit h1 _ Hh1). cbn [mbind option_bind].
  rewrite (getnum_two h1 h2 _ _ Hh1 Hh2), Hhv. cbn [mbind option_bind Time.skip_colon].
  rewrite (getnum_two i1 i2 _ _ Hi1 Hi2), Hiv. cbn [mbind option_bind Time.skip_colon].
  rewrite (getnum_two s1 s2 _ _ Hs1 Hs2), Hsv.
  cbn [mbind option_bind Time.skip_fraction length Nat.eqb Time.test].
  replace (sec <? 60) with true by (symmetry; apply Z.ltb_lt; lia).
  replace (1 <=? mo) with true by (symmetry; apply Z.leb_le; lia).
  replace (mo <=? 12) with true by (symmetry; apply Z.leb_le; lia).
  replace (h <? 24) with true by (symmetry; apply Z.ltb_lt; lia).
  replace (mi <? 60) with true by (symmetry; apply Z.ltb_lt; lia).
  replace (1 <=? d) with true by (symmetry; apply Z.leb_le; lia).
  replace (d <=? Time.daysIn mo y) with true by (symmetry; apply Z.leb_le; lia).
  reflexivity.
Qed.

(** X7.  A timestamp of the camera's form "YYYY:MM:DD HH:MM:SS" that names
    a real date and time is accepted, and is written back with dashes and
    a "T": "YYYY-MM-DDTHH:MM:SS". *)
Theorem formatDateTime_round_trip (t : Time.civil) :
  valid_civil t ->
  Time.Parse (exif_timestamp t) = Some t /\
  formatDateTime (exif_timestamp t) = Time.Format t.
Proof.
  intros H. pose proof (Parse_exif_timestamp t H) as HP.
  split; [exact HP|]. unfold formatDateTime. rewrite HP. reflexivity.
Qed.

Lemma formatDateTime_round_trip_witness :
  formatDateTime "2024:02:29 23:59:07" = "2024-02-29T23:59:07".
Proof.
  set (t := {| Time.year := 2024; Time.month := 2; Time.day := 29;
               Time.hour := 23; Time.minute := 59; Time.second := 7 |}).
  assert (H : valid_civil t).
  { unfold valid_civil, t.
    cbn [Time.year Time.month Time.day Time.hour Time.minute Time.second].
    change (Time.daysIn 2 2024) with 29. lia. }
  exact (proj2 (formatDateTime_round_trip t H)).
Defined.

(** The checks that remain once the digits of a timestamp are read. *)
Lemma Parse_exif_timestamp_checks (t : Time.civil) :
  two_digit_fields t ->
  Time.Parse (exif_timestamp t) =
    if (Time.second t <? 60) && (1 <=? Time.month t) && (Time.month t <=? 12) &&
       (Time.hour t <? 24) && (Time.minute t <? 60) && (1 <=? Time.day t) &&
       (Time.day t <=? Time.daysIn (Time.month t) (Time.year t))
    then Some t else None.
Proof.
  destruct t as [y mo d h mi sec]. unfold two_digit_fields.
  cbn [Time.year Time.month Time.day Time.hour Time.minute Time.second].
  intros (Hy & Hmo & Hd & Hh & Hmi & Hsec).
  destruct (zero_padded_4 y Hy) as (y1 & y2 & y3 & y4 & Ey & Hyd & Hyv).
  destruct (zero_padded_2 mo Hmo) as (m1 & m2 & Em & Hm1 & Hm2 & Hmv).
  destruct (zero_padded_2 d Hd) as (d1 & d2 & Ed & Hd1 & Hd2 & Hdv).
  destruct (zero_padded_2 h Hh) as (h1 & h2 & Eh & Hh1 & Hh2 & Hhv).
  destruct (zero_padded_2 mi Hmi) as (i1 & i2 & Ei & Hi1 & Hi2 & Hiv).
  destruct (zero_padded_2 sec Hsec) as (s1 & s2 & Es & Hs1 & Hs2 & Hsv).
  unfold Time.Parse, exif_timestamp.
  cbn [Time.year Time.month Time.day Time.hour Time.minute Time.second].
  rewrite !list_ascii_of_string_app, Ey, Em, Ed, Eh, Ei, Es.
  cbn [list_ascii_of_string app length Nat.leb take drop].
  rewrite Hyd. cbn [andb Time.test mbind option_bind]. rewrite Hyv.
  cbn [mbind option_bind Time.skip_colon].
  rewrite (getnum_two m1 m2 _ _ Hm1 Hm2), Hmv. cbn [mbind option_bind Time.skip_colon].
  rewrite (getnum_two d1 d2 _ _ Hd1 Hd2), Hdv. cbn [mbind option_bind].
  rewrite (skip_space_digit h1 _ Hh1). cbn [mbind option_bind].
  rewrite (getnum_two h1 h2 _ _ Hh1 Hh2), Hhv. cbn [mbind option_bind Time.skip_colon].
  rewrite (getnum_two i1 i2 _ _ Hi1 Hi2), Hiv. cbn [mbind option_bind Time.skip_colon].
  rewrite (getnum_two s1 s2 _ _ Hs1 Hs2), Hsv.
  cbn [mbind option_bind Time.skip_fraction length Nat.eqb Time.test].
  destruct (sec <? 60), (1 <=? mo), (mo <=? 12), (h <? 24), (mi <? 60), (1 <=? d),
    (d <=? Time.daysIn mo y); reflexivity.
Qed.

(** X8.  A timestamp of the camera's form whose fields do not name a real
    date and time (month 13, 29 February of a common year, hour 24, ...)
    is rejected: the formatted value is empty. *)
Theorem formatDateTime_rejects (t : Time.civil) :
  two_digit_fields t -> ~ valid_civil t ->
  formatDateTime (exif_timestamp t) = "".
Proof.
  intros Hfields Hinvalid. unfold formatDateTime.
  rewrite (Parse_exif_timestamp_checks t Hfields).
  destruct (_ && _) eqn:E; [|reflexivity].
  exfalso. apply Hinvalid. unfold valid_civil, two_digit_fields in *.
  repeat (apply andb_prop in E as [E ?]).
  repeat match goal with
    | H : (_ <? _) = true |- _ => apply Z.ltb_lt in H
    | H : (_ <=? _) = true |- _ => apply Z.leb_le in H
    end.
  apply Z.ltb_lt in E. lia.
Qed.

Lemma formatDateTime_rejects_witness :
  formatDateTime "2023:02:29 10:30:00" = "".
Proof.
  set (t := {| Time.year := 2023; Time.month := 2; Time.day := 29;
               Time.hour := 10; Time.minute := 30; Time.second := 0 |}).
  assert (Hfields : two_digit_fields t).
  { unfold two_digit_fields, t.
    cbn [Time.year Time.month Time.day Time.hour Time.minute Time.second]. lia. }
  assert (Hinvalid : ~ valid_civil t).
  { unfold valid_civil, t.
    cbn [Time.year Time.month Time.day Time.hour Time.minute Time.second].
    change (Time.daysIn 2 2023) with 28. lia. }
  exact (formatDateTime_rejects t Hfields Hinvalid).
Defined.

Lemma append_eq_empty (a b : string) : a ++ b = "" -> a = "" /\ b = "".
Proof. destruct a; [rewrite append_nil; auto | rewrite append_cons; discriminate]. Qed.

Lemma Format_nonempty (t : Time.civil) : Time.Format t <> "".
Proof.
  unfold Time.Format. intros E. apply append_eq_empty in E as [_ E].
  rewrite append_cons in E. discriminate E.
Qed.

(** The keys of the timestamps among those of the record. *)
Lemma timestamp_keys (s : bimg.EXIF) :
  let members := Json.keys (Json.exif_fields (ParseEXIFFromBimg s)) in
  (In "dateTime" members <-> Time.Parse (bimg.Datetime s) <> None) /\
  (In "dateTimeOriginal" members <-> Time.Parse (bimg.DateTimeOriginal s) <> None) /\
  (In "dateTimeDigitized" members <-> Time.Parse (bimg.DateTimeDigitized s) <> None).
Proof.
  assert (H : forall raw,
    when (nonempty raw) "" (formatDateTime raw) <> "" <-> Time.Parse raw <> None).
  { intros raw. unfold when, nonempty, formatDateTime.
    destruct (String.eqb_spec raw "") as [->|]; cbn [negb].
    - split; [congruence | intros H; contradiction H; reflexivity].
    - destruct (Time.Parse raw) as [t|]; [|tauto].
      split; [discriminate | intros _; apply Format_nonempty]. }
  cbv zeta.
  rewrite dateTime_member, dateTimeOriginal_member, dateTimeDigitized_member.
  cbn [ParseEXIFFromBimg DateTime DateTimeOriginal DateTimeDigitized].
  rewrite !H. tauto.
Qed.

(** X9.  In the object that [json.Marshal] returns for the result, each
    of the three timestamps has a member exactly when [time.Parse]
    accepts its raw text.  When [json.Marshal] fails there is no object,
    and so no member; it does not fail when a raw coordinate is empty. *)
Theorem timestamp_members (s : bimg.EXIF) :
  let res := ParseEXIFFromBimg s in
  let encoded := Json.Marshal res <> None in
  (has_member "dateTime" res <-> Time.Parse (bimg.Datetime s) <> None /\ encoded) /\
  (has_member "dateTimeOriginal" res <->
     Time.Parse (bimg.DateTimeOriginal s) <> None /\ encoded) /\
  (has_member "dateTimeDigitized" res <->
     Time.Parse (bimg.DateTimeDigitized s) <> None /\ encoded) /\
  (bimg.GPSLatitude s = "" \/ bimg.GPSLongitude s = "" -> encoded).
Proof.
  pose proof (timestamp_keys s) as H. cbv zeta in H.
  destruct H as (H1 & H2 & H3).
  cbv zeta.
  refine (conj _ (conj _ (conj _ _)));
    first [ apply has_member_iff; assumption | apply Marshal_without_coordinates ].
Qed.

Lemma timestamp_members_witness :
  has_member "dateTime" (ParseEXIFFromBimg (sample_exposure "" "2023:02:28 10:30:00")) /\
  ~ has_member "dateTime" (ParseEXIFFromBimg (sample_exposure "" "2023:02:29 10:30:00")).
Proof.
  split.
  - pose proof (timestamp_members (sample_exposure "" "2023:02:28 10:30:00")) as H.
    cbv zeta in H. destruct H as (Hd & _ & _ & Henc).
    apply Hd. split; [vm_compute; discriminate | apply Henc; left; reflexivity].
  - pose proof (timestamp_members (sample_exposure "" "2023:02:29 10:30:00")) as H.
    cbv zeta in H. destruct H as (Hd & _).
    intros H. apply Hd in H. destruct H as [H _]. apply H. vm_compute. reflexivity.
Defined.

(** ** The enumerations, for the codes above 0 *)

(** A code outside the table of a [switch] takes its default case. *)
Ltac outside_table H code :=
  let p := fresh "p" in
  destruct code as [|p|p];
  [ first [ reflexivity | cbn in H; discriminate H ] | | reflexivity ];
  repeat first
    [ reflexivity
    | progress cbn in H; discriminate H
    | destruct p as [p|p|] ].

(** A code above 0 is never decoded to [nil]. *)
Ltac never_nil code :=
  let p := fresh "p" in
  destruct code as [|p|p]; [lia | | lia];
  repeat first [ discriminate | destruct p as [p|p|] ].

Lemma exposureProgram_default (code : Z) :
  existsb (Z.eqb code) exposureProgram_codes = false -> exposureProgram code = any_int code.
Proof. intros H. unfold exposureProgram. outside_table H code. Qed.

Lemma exposureProgram_not_nil (code : Z) : 0 < code -> exposureProgram code <> nil.
Proof. intros H. unfold exposureProgram. never_nil code. Qed.

Lemma meteringMode_default (code : Z) :
  existsb (Z.eqb code) meteringMode_codes = false -> meteringMode code = any_int code.
Proof. intros H. unfold meteringMode. outside_table H code. Qed.

Lemma meteringMode_not_nil (code : Z) : 0 < code -> meteringMode code <> nil.
Proof. intros H. unfold meteringMode. never_nil code. Qed.

Lemma compression_default (code : Z) :
  existsb (Z.eqb code) compression_codes = false -> compression code = any_int code.
Proof. intros H. unfold compression. outside_table H code. Qed.

Lemma compression_not_nil (code : Z) : 0 < code -> compression code <> nil.
Proof. intros H. unfold compression. never_nil code. Qed.

Lemma colorSpace_default (code : Z) :
  existsb (Z.eqb code) colorSpace_codes = false -> colorSpace code = any_int code.
Proof. intros H. unfold colorSpace. outside_table H code. Qed.

Lemma colorSpace_not_nil (code : Z) : 0 < code -> colorSpace code <> nil.
Proof. intros H. unfold colorSpace. never_nil code. Qed.

Lemma sensingMethod_default (code : Z) :
  existsb (Z.eqb code) sensingMethod_codes = false -> sensingMethod code = any_int code.
Proof. intros H. unfold sensingMethod. outside_table H code. Qed.

Lemma sensingMethod_not_nil (code : Z) : 0 < code -> sensingMethod code <> nil.
Proof. intros H. unfold sensingMethod. never_nil code. Qed.

Lemma exposureMode_default (code : Z) :
  existsb (Z.eqb code) exposureMode_codes = false -> exposureMode code = any_int code.
Proof. intros H. unfold exposureMode. outside_table H code. Qed.

Lemma exposureMode_not_nil (code : Z) : 0 < code -> exposureMode code <> nil.
Proof. intros H. unfold exposureMode. never_nil code. Qed.

(** A member with a value of type [any] is there exactly when the value is
    not [nil]. *)
Ltac any_member :=
  split;
  [ intros H; member_of H; unfold Json.omitempty_any in H;
    match type of H with
    | context [match ?x with nil => _ | _ => _ end] =>
        destruct x; [destruct H | discriminate ..]
    end
  | intros H;
    member_at ltac:(unfold Json.omitempty_any;
      match goal with
      | |- context [match ?x with nil => _ | _ => _ end] =>
          destruct x; [contradiction | left; reflexivity ..]
      end) ].

Lemma exposureProgram_member (e : EXIF) :
  In "exposureProgram" (Json.keys (Json.exif_fields e)) <-> ExposureProgram e <> nil.
Proof. any_member. Qed.

Lemma meteringMode_member (e : EXIF) :
  In "meteringMode" (Json.keys (Json.exif_fields e)) <-> MeteringMode e <> nil.
Proof. any_member. Qed.

Lemma compression_member (e : EXIF) :
  In "compression" (Json.keys (Json.exif_fields e)) <-> Compression e <> nil.
Proof. any_member. Qed.

Lemma colorSpace_member (e : EXIF) :
  In "colorSpace" (Json.keys (Json.exif_fields e)) <-> ColorSpace e <> nil.
Proof. any_member. Qed.

Lemma sensingMethod_member (e : EXIF) :
  In "sensingMethod" (Json.keys (Json.exif_fields e)) <-> SensingMethod e <> nil.
Proof. any_member. Qed.

Lemma exposureMode_member (e : EXIF) :
  In "exposureMode" (Json.keys (Json.exif_fields e)) <-> ExposureMode e <> nil.
Proof. any_member. Qed.

Lemma outside (code : Z) (codes : list Z) :
  ~ In code codes -> existsb (Z.eqb code) codes = false.
Proof.
  intros H. destruct (existsb _ _) eqn:E; [|reflexivity].
  apply existsb_exists in E as (c & Hc & E). apply Z.eqb_eq in E.
  subst c. contradiction.
Qed.

Lemma when_positive (code : Z) (f : Z -> any) :
  0 < code -> when (0 <? code) nil (f code) = f code.
Proof. intros H. unfold when. destruct (Z.ltb_spec 0 code); [reflexivity | lia]. Qed.

Lemma when_not_positive (code : Z) (f : Z -> any) :
  ~ 0 < code -> when (0 <? code) nil (f code) = nil.
Proof. intros H. unfold when. destruct (Z.ltb_spec 0 code); [lia | reflexivity]. Qed.

(** X10.  An enumeration code above 0 that its table does not list is
    never an error: the field holds the raw code itself. *)
Theorem enumerations_pass_through (s : bimg.EXIF) :
  let res := ParseEXIFFromBimg s in
  (0 < bimg.ExposureProgram s -> ~ In (bimg.ExposureProgram s) exposureProgram_codes ->
     ExposureProgram res = any_int (bimg.ExposureProgram s)) /\
  (0 < bimg.MeteringMode s -> ~ In (bimg.MeteringMode s) meteringMode_codes ->
     MeteringMode res = any_int (bimg.MeteringMode s)) /\
  (0 < bimg.Compression s -> ~ In (bimg.Compression s) compression_codes ->
     Compression res = any_int (bimg.Compression s)) /\
  (0 < bimg.ColorSpace s -> ~ In (bimg.ColorSpace s) colorSpace_codes ->
     ColorSpace res = any_int (bimg.ColorSpace s)) /\
  (0 < bimg.SensingMethod s -> ~ In (bimg.SensingMethod s) sensingMethod_codes ->
     SensingMethod res = any_int (bimg.SensingMethod s)) /\
  (0 < bimg.ExposureMode s -> ~ In (bimg.ExposureMode s) exposureMode_codes ->
     ExposureMode res = any_int (bimg.ExposureMode s)).
Proof.
  cbv zeta.
  cbn [ParseEXIFFromBimg ExposureProgram MeteringMode Compression ColorSpace
    SensingMethod ExposureMode].
  repeat split; intros Hpos Hout; rewrite when_positive by exact Hpos.
  - apply exposureProgram_default, outside, Hout.
  - apply meteringMode_default, outside, Hout.
  - apply compression_default, outside, Hout.
  - apply colorSpace_default, outside, Hout.
  - apply sensingMethod_default, outside, Hout.
  - apply exposureMode_default, outside, Hout.
Qed.

Lemma enumerations_pass_through_witness :
  Compression (ParseEXIFFromBimg (sample_codes 40000)) = any_int 40000 /\
  ExposureMode (ParseEXIFFromBimg (sample_codes 40000)) = any_int 40000.
Proof.
  pose proof (enumerations_pass_through (sample_codes 40000))
    as (_ & _ & Hcompression & _ & _ & Hmode).
  split; [apply Hcompression | apply Hmode]; cbn; lia.
Defined.

(** The keys of the enumerations among those of the record. *)
Lemma enumeration_keys (s : bimg.EXIF) :
  let members := Json.keys (Json.exif_fields (ParseEXIFFromBimg s)) in
  (In "exposureProgram" members <-> 0 < bimg.ExposureProgram s) /\
  (In "meteringMode" members <-> 0 < bimg.MeteringMode s) /\
  (In "compression" members <-> 0 < bimg.Compression s) /\
  (In "colorSpace" members <-> 0 < bimg.ColorSpace s) /\
  (In "sensingMethod" members <-> 0 < bimg.SensingMethod s) /\
  (In "exposureMode" members <-> 0 < bimg.ExposureMode s).
Proof.
  assert (H : forall code f,
    (forall c, 0 < c -> f c <> nil) ->
    when (0 <? code) nil (f code) <> nil <-> 0 < code).
  { intros code f Hf. split.
    - intros H. destruct (Z.lt_ge_cases 0 code) as [|Hle]; [assumption|].
      contradiction H. apply when_not_positive. lia.
    - intros Hpos. rewrite when_positive by exact Hpos. apply Hf, Hpos. }
  cbv zeta.
  rewrite exposureProgram_member, meteringMode_member, compression_member,
    colorSpace_member, sensingMethod_member, exposureMode_member.
  cbn [ParseEXIFFromBimg ExposureProgram MeteringMode Compression ColorSpace
    SensingMethod ExposureMode].
  repeat split; try (intros E; apply H in E; [exact E|]); try (apply H);
    first [ apply exposureProgram_not_nil | apply meteringMode_not_nil
          | apply compression_not_nil | apply colorSpace_not_nil
          | apply sensingMethod_not_nil | apply exposureMode_not_nil ].
Qed.

(** X11.  In the object that [json.Marshal] returns for the result, each
    enumeration has a member exactly when its code is above 0: a code
    above 0 always yields a label or the code itself.  When
    [json.Marshal] fails there is no object, and so no member; it does
    not fail when a raw coordinate is empty. *)
Theorem enumeration_members (s : bimg.EXIF) :
  let res := ParseEXIFFromBimg s in
  let encoded := Json.Marshal res <> None in
  (has_member "exposureProgram" res <-> 0 < bimg.ExposureProgram s /\ encoded) /\
  (has_member "meteringMode" res <-> 0 < bimg.MeteringMode s /\ encoded) /\
  (has_member "compression" res <-> 0 < bimg.Compression s /\ encoded) /\
  (has_member "colorSpace" res <-> 0 < bimg.ColorSpace s /\ encoded) /\
  (has_member "sensingMethod" res <-> 0 < bimg.SensingMethod s /\ encoded) /\
  (has_member "exposureMode" res <-> 0 < bimg.ExposureMode s /\ encoded) /\
  (bimg.GPSLatitude s = "" \/ bimg.GPSLongitude s = "" -> encoded).
Proof.
  pose proof (enumeration_keys s) as H. cbv zeta in H.
  destruct H as (H1 & H2 & H3 & H4 & H5 & H6).
  cbv zeta.
  refine (conj _ (conj _ (conj _ (conj _ (conj _ (conj _ _))))));
    first [ apply has_member_iff; assumption | apply Marshal_without_coordinates ].
Qed.

Lemma enumeration_members_witness :
  has_member "compression" (ParseEXIFFromBimg (sample_codes 40000)) /\
  ~ has_member "compression" (ParseEXIFFromBimg (sample_codes 0)).
Proof.
  split.
  - pose proof (enumeration_members (sample_codes 40000)) as H.
    cbv zeta in H. destruct H as (_ & _ & Hc & _ & _ & _ & Henc).
    apply Hc. split; [reflexivity | apply Henc; left; reflexivity].
  - pose proof (enumeration_members (sample_codes 0)) as H.
    cbv zeta in H. destruct H as (_ & _ & Hc & _).
    intros H. apply Hc in H. destruct H as [H _]. discriminate H.
Defined.

(** X12.  The label "Auto" of the exposure mode is never produced: code 0
    is skipped before its case is reached, and no other code has it. *)
Theorem exposureMode_never_Auto (s : bimg.EXIF) :
  ExposureMode (ParseEXIFFromBimg s) <> any_string "Auto".
Proof.
  cbn [ParseEXIFFromBimg ExposureMode]. unfold when.
  destruct (Z.ltb_spec 0 (bimg.ExposureMode s)) as [Hpos|]; [|discriminate].
  destruct (bimg.ExposureMode s) as [|p|p]; [lia | | lia].
  unfold exposureMode. destruct p as [[]|[]|]; discriminate.
Qed.

(** ** The subject area, once more *)

Lemma subjectArea_tokens (raw : string) :
  subjectArea raw =
    if String.eqb raw "" then None
    else
      let parts := Strings.Split raw " " in
      if Nat.leb 2 (length parts) && Nat.leb (length parts) 4
      then Some (omap Atoi_ok parts) else None.
Proof.
  unfold subjectArea. destruct (String.eqb raw ""); [reflexivity|]. cbv zeta.
  set (parts := Strings.Split raw " ").
  destruct (Nat.leb 2 (length parts) && Nat.leb (length parts) 4); [|reflexivity].
  pose proof (subjectArea_loop_spec parts (replicate (length parts) 0) 0) as H.
  rewrite length_replicate in H. specialize (H ltac:(lia)).
  destruct (subjectArea_loop parts _ 0) as [area j].
  rewrite H. reflexivity.
Qed.

Lemma omap_Atoi_ok_length (parts : list string) :
  (length (omap Atoi_ok parts) <= length parts)%nat /\
  (Forall (fun p => Atoi_ok p <> None) parts ->
   length (omap Atoi_ok parts) = length parts).
Proof.
  induction parts as [|p parts [IH1 IH2]]; [split; reflexivity|].
  cbn [omap list_omap length]. destruct (Atoi_ok p) as [n|] eqn:E; cbn [length].
  - split; [lia|]. intros H. apply Forall_cons in H as [_ H]. rewrite (IH2 H). reflexivity.
  - split; [lia|]. intros H. apply Forall_cons in H as [H _]. congruence.
Qed.

(** X13.  A subject area that is set holds at most 4 integers, never more
    than there are tokens; it holds fewer than 2 only if some token is
    not an integer, and it may then be empty. *)
Theorem subjectArea_bounds (s : bimg.EXIF) (area : list Z) :
  SubjectArea (ParseEXIFFromBimg s) = Some area ->
  let parts := Strings.Split (bimg.SubjectArea s) " " in
  (2 <= length parts <= 4)%nat /\
  (length area <= length parts)%nat /\
  (Forall (fun p => Atoi_ok p <> None) parts -> length area = length parts).
Proof.
  cbn [SubjectArea ParseEXIFFromBimg]. rewrite subjectArea_tokens.
  destruct (String.eqb _ ""); [discriminate|]. cbv zeta.
  destruct (Nat.leb 2 _ && Nat.leb _ 4) eqn:E; [|discriminate].
  intros [= <-]. apply andb_prop in E as [E2 E4].
  apply Nat.leb_le in E2, E4.
  split; [lia|]. apply omap_Atoi_ok_length.
Qed.

Lemma subjectArea_bounds_witness :
  SubjectArea (ParseEXIFFromBimg (sample 0 "a b c" "" "" "" "")) = Some [] /\
  (2 <= length (Strings.Split "a b c" " ") <= 4)%nat.
Proof.
  split; [reflexivity|].
  apply (subjectArea_bounds (sample 0 "a b c" "" "" "" "") [] eq_refl).
Defined.

(** ** The GPS record, once more *)

Lemma gps_member (e : EXIF) :
  In "gps" (Json.keys (Json.exif_fields e)) <-> GPS e <> None.
Proof.
  split.
  - intros H. member_of H. unfold Json.omitempty_gps in H.
    destruct (GPS e); [discriminate | destruct H].
  - intros H.
    member_at ltac:(unfold Json.omitempty_gps; destruct (GPS e);
                    [left; reflexivity | contradiction]).
    unfold Json.omitempty_gps. destruct (GPS e); [left; reflexivity | contradiction].
Qed.

(** With a GPS record, [json.Marshal] needs its three numbers finite. *)
Lemma Marshal_with_GPS (e : EXIF) (g : EXIFGPS) :
  GPS e = Some g ->
  Json.Marshal e <> None <->
  Json.is_finite (Latitude g) = true /\
  Json.is_finite (Longitude g) = true /\
  Json.is_finite (Direction g) = true.
Proof.
  unfold Json.Marshal. intros ->.
  destruct (Json.is_finite (Latitude g)), (Json.is_finite (Longitude g)),
    (Json.is_finite (Direction g)); cbn [andb]; split;
    first [ discriminate | intros (? & ? & ?); discriminate
          | intros H; contradiction H; reflexivity
          | intros _; repeat split ].
Qed.

(** X14.  A GPS record is built exactly when both coordinates are
    present, the latitude reference is N or S and the longitude
    reference is E or W, in either case.  [json.Marshal] fails exactly
    when the record is built and its latitude, its longitude or its
    direction is an infinity or NaN; otherwise the object it returns has
    a "gps" member exactly when the record is built. *)
Theorem gps_member_iff (s : bimg.EXIF) :
  let res := ParseEXIFFromBimg s in
  let lat := parseGPSCoordinate (bimg.GPSLatitude s) in
  let lon := parseGPSCoordinate (bimg.GPSLongitude s) in
  let signed_lat :=
    (if is_one_of (bimg.GPSLatitudeRef s) ["S"; "s"] then lat * minus_one else lat)%f64 in
  let signed_lon :=
    (if is_one_of (bimg.GPSLongitudeRef s) ["W"; "w"] then lon * minus_one else lon)%f64 in
  let built :=
    bimg.GPSLatitude s <> "" /\ bimg.GPSLongitude s <> "" /\
    In (bimg.GPSLatitudeRef s) latitude_refs /\
    In (bimg.GPSLongitudeRef s) longitude_refs in
  let finite :=
    Json.is_finite (round5 signed_lat) = true /\
    Json.is_finite (round5 signed_lon) = true /\
    Json.is_finite (fst (gpsDirection s)) = true in
  (GPS res <> None <-> built) /\
  (Json.Marshal res = None <-> built /\ ~ finite) /\
  (has_member "gps" res <-> built /\ finite).
Proof.
  cbv zeta. rewrite has_member_keys, gps_member.
  destruct (String.eqb_spec (bimg.GPSLatitude s) "") as [Hlat|Hlat].
  { pose proof (Marshal_without_coordinates s (or_introl Hlat)) as Henc.
    cbn [GPS ParseEXIFFromBimg] in *.
    rewrite populateGPSFields_empty by (left; exact Hlat). tauto. }
  destruct (String.eqb_spec (bimg.GPSLongitude s) "") as [Hlon|Hlon].
  { pose proof (Marshal_without_coordinates s (or_intror Hlon)) as Henc.
    cbn [GPS ParseEXIFFromBimg] in *.
    rewrite populateGPSFields_empty by (right; exact Hlon). tauto. }
  rewrite <- !is_one_of_In.
  pose proof (populateGPSFields_present s Hlat Hlon) as Hgps.
  destruct (is_one_of (bimg.GPSLatitudeRef s) latitude_refs),
    (is_one_of (bimg.GPSLongitudeRef s) longitude_refs); cbn [andb] in Hgps.
  2-4: assert (Henc : Json.Marshal (ParseEXIFFromBimg s) <> None)
         by (rewrite Marshal_without_GPS; [discriminate | exact Hgps]);
       cbn [GPS ParseEXIFFromBimg]; rewrite Hgps;
       refine (conj _ (conj _ _)); split;
       first [ intros (_ & _ & ? & ?); discriminate
             | intros ((_ & _ & ? & ?) & _); discriminate
             | intros [? _]; congruence
             | congruence ].
  cbv zeta in Hgps.
  pose proof (Marshal_with_GPS (ParseEXIFFromBimg s) _ Hgps) as Henc.
  cbn [Latitude Longitude Direction] in Henc.
  cbn [GPS ParseEXIFFromBimg]. rewrite Hgps.
  refine (conj _ (conj _ _)).
  - split; [intros _; repeat split; assumption | discriminate].
  - split.
    + intros E. split; [repeat split; assumption|].
      intros Hfin. apply Henc in Hfin. contradiction.
    + intros [_ Hnot].
      destruct (Json.Marshal (ParseEXIFFromBimg s)) eqn:E; [|reflexivity].
      contradiction Hnot. apply Henc. discriminate.
  - rewrite Henc. split.
    + intros [_ Hfin]. split; [repeat split; assumption | exact Hfin].
    + intros [_ Hfin]. split; [discriminate | exact Hfin].
Qed.

Lemma gps_member_iff_witness :
  Json.Marshal (ParseEXIFFromBimg (sample 0 "" "1e308" "N" "73 58 12.0" "W")) = None /\
  has_member "gps" (ParseEXIFFromBimg (sample 0 "" "40 26 46.3" "N" "73 58 12.0" "W")) /\
  ~ has_member "gps" (ParseEXIFFromBimg (sample 0 "" "40 26 46.3" "E" "73 58 12.0" "W")).
Proof.
  refine (conj _ (conj _ _)).
  - apply (proj1 (proj2 (gps_member_iff (sample 0 "" "1e308" "N" "73 58 12.0" "W")))).
    split.
    + cbn. repeat split; first [discriminate | auto].
    + intros [H _]. vm_compute in H. discriminate H.
  - apply (proj2 (proj2 (gps_member_iff (sample 0 "" "40 26 46.3" "N" "73 58 12.0" "W")))).
    split.
    + cbn. repeat split; first [discriminate | auto].
    + vm_compute. repeat split.
  - intros H.
    apply (proj2 (proj2 (gps_member_iff (sample 0 "" "40 26 46.3" "E" "73 58 12.0" "W")))) in H.
    destruct H as [(_ & _ & Href & _) _]. cbn in Href.
    repeat (destruct Href as [Href|Href]; [discriminate Href|]). exact Href.
Defined.

(** A latitude that overflows when it is scaled gives a GPS record that
    [json.Marshal] refuses. *)
Example Marshal_refuses_infinity :
  Json.Marshal (ParseEXIFFromBimg (sample 0 "" "1e308" "N" "73 58 12.0" "W")) = None /\
  populateGPSFields (sample 0 "" "1e308" "N" "73 58 12.0" "W") <> None /\
  Json.Marshal (ParseEXIFFromBimg (sample 0 "" "40 26 46.3" "N" "73 58 12.0" "W")) <> None.
Proof. vm_compute. repeat split; discriminate. Qed.

Lemma populateGPSFields_optional (s : bimg.EXIF) (g : EXIFGPS) :
  populateGPSFields s = Some g ->
  Altitude g = gpsAltitude s /\ Speed g = gpsSpeed s /\
  Direction g = fst (gpsDirection s) /\ DirectionRef g = snd (gpsDirection s).
Proof.
  unfold populateGPSFields.
  repeat match goal with
    | |- context [if ?b then _ else _] => destruct b
    end; cbn; intros H; try discriminate H; injection H as <-; repeat split.
Qed.

(** X15.  In a GPS record the altitude is empty exactly when the raw
    altitude is empty or does not parse, and the speed exactly when the
    raw speed or its reference is empty or the speed does not parse; a
    direction that is missing or does not parse leaves 0 and no
    reference label.  None of them drops the record. *)
Theorem gps_optional_fields (s : bimg.EXIF) (g : EXIFGPS) :
  populateGPSFields s = Some g ->
  (Altitude g = "" <-> bimg.GPSAltitude s = "" \/ malformed (bimg.GPSAltitude s)) /\
  (Speed g = "" <->
     bimg.GPSSpeed s = "" \/ bimg.GPSSpeedRef s = "" \/ malformed (bimg.GPSSpeed s)) /\
  (bimg.GPSImgDirection s = "" \/ malformed (bimg.GPSImgDirection s) ->
     Direction g = F64.zero /\ DirectionRef g = "").
Proof.
  intros H. destruct (populateGPSFields_optional s g H) as (-> & -> & -> & ->).
  unfold gpsAltitude, gpsSpeed, gpsDirection, malformed.
  refine (conj _ (conj _ _)).
  - destruct (String.eqb_spec (bimg.GPSAltitude s) ""); [tauto|].
    destruct (parseEXIFRational (bimg.GPSAltitude s)) as [alt [err|]]; cbn [snd].
    + split; [intros _; right; discriminate | reflexivity].
    + split.
      * intros E. apply append_eq_empty in E as [_ E]. discriminate E.
      * intros [? | ?]; congruence.
  - destruct (String.eqb_spec (bimg.GPSSpeed s) ""); [cbn [orb]; tauto|].
    destruct (String.eqb_spec (bimg.GPSSpeedRef s) ""); [cbn [orb]; tauto|].
    cbn [orb].
    destruct (parseEXIFRational (bimg.GPSSpeed s)) as [speed [err|]]; cbn [snd].
    + split; [intros _; right; right; discriminate | reflexivity].
    + pose proof (proj1 (formatFloat_facts speed 2)) as Hne.
      split; [|intros [? | [? | ?]]; congruence].
      intros E. exfalso.
      repeat match type of E with
        | (if ?b then _ else _) = _ => destruct b
        end;
        first [ exact (Hne E) | apply append_eq_empty in E as [E _]; exact (Hne E) ].
  - intros [-> | Hbad]; [split; reflexivity|].
    destruct (String.eqb (bimg.GPSImgDirection s) ""); [split; reflexivity|].
    destruct (parseEXIFRational (bimg.GPSImgDirection s)) as [dir [err|]]; cbn [snd] in *.
    + split; reflexivity.
    + contradiction Hbad. reflexivity.
Qed.

Lemma gps_optional_fields_witness :
  exists g,
    populateGPSFields (sample 0 "" "40 26 46.3" "N" "73 58 12.0" "W") = Some g /\
    Altitude g = "" /\ Speed g = "".
Proof.
  eexists. split; [reflexivity|].
  pose proof (gps_optional_fields
    (sample 0 "" "40 26 46.3" "N" "73 58 12.0" "W") _ eq_refl) as (Halt & Hspeed & _).
  split; [apply Halt | apply Hspeed]; left; reflexivity.
Defined.

(** ** Content negotiation *)

Lemma Split_whole (sep : ascii) (s : string) :
  Strings.Count s sep = O -> Strings.Split s sep = [s].
Proof.
  induction s as [|c s IH]; [reflexivity|]. cbn [Strings.Count Strings.Split].
  destruct (Ascii.eqb c sep); [discriminate|].
  intros H. rewrite (IH H). reflexivity.
Qed.

Lemma Split_cut (sep : ascii) (a b : string) :
  Strings.Count a sep = O ->
  Strings.Split (a ++ String sep b) sep = a :: Strings.Split b sep.
Proof.
  induction a as [|c a IH]; intros H.
  - rewrite append_nil. cbn [Strings.Split]. rewrite Ascii.eqb_refl. reflexivity.
  - cbn [Strings.Count] in H. rewrite append_cons. cbn [Strings.Split].
    destruct (Ascii.eqb c sep); [discriminate|].
    rewrite (IH H). reflexivity.
Qed.

Section NegotiationFacts.

Variable ParseMediaType : string -> string.

Lemma acceptedFormat_range (mediaType format : string) :
  acceptedFormat mediaType = Some format ->
  In format ["webp"; "png"; "jpeg"; "avif"].
Proof.
  unfold acceptedFormat.
  repeat match goal with
    | |- context [if ?b then _ else _] => destruct b
    end; intros [= <-]; cbn; tauto.
Qed.

Lemma determineAcceptMimeType_loop_range (parts : list string) :
  In (determineAcceptMimeType_loop ParseMediaType parts)
    ["webp"; "png"; "jpeg"; "avif"; ""].
Proof.
  induction parts as [|v parts IH]; [cbn; tauto|].
  cbn [determineAcceptMimeType_loop].
  destruct (acceptedFormat (ParseMediaType v)) as [format|] eqn:E; [|exact IH].
  apply acceptedFormat_range in E. cbn in E |- *. tauto.
Qed.

(** X17.  Whatever [mime.ParseMediaType] returns, the negotiated format
    is "webp", "png", "jpeg", "avif" or empty.  The elements of the header
    are tried from the left: one that is not among the four image types
    is passed over, and the first that is decides, whatever follows
    it. *)
Theorem determineAcceptMimeType_first (accept : string) :
  In (determineAcceptMimeType ParseMediaType accept)
    ["webp"; "png"; "jpeg"; "avif"; ""] /\
  (forall v rest format,
     accept = v ++ "," ++ rest -> Strings.Count v "," = O ->
     acceptedFormat (ParseMediaType v) = Some format ->
     determineAcceptMimeType ParseMediaType accept = format) /\
  (forall v rest,
     accept = v ++ "," ++ rest -> Strings.Count v "," = O ->
     acceptedFormat (ParseMediaType v) = None ->
     determineAcceptMimeType ParseMediaType accept =
       determineAcceptMimeType ParseMediaType rest) /\
  (Strings.Count accept "," = O ->
   determineAcceptMimeType ParseMediaType accept =
     default "" (acceptedFormat (ParseMediaType accept))).
Proof.
  unfold determineAcceptMimeType. refine (conj _ (conj _ (conj _ _))).
  - apply determineAcceptMimeType_loop_range.
  - intros v rest format -> Hv Hf. change ("," ++ rest) with (String "," rest).
    rewrite (Split_cut _ _ _ Hv). cbn [determineAcceptMimeType_loop].
    rewrite Hf. reflexivity.
  - intros v rest -> Hv Hf. change ("," ++ rest) with (String "," rest).
    rewrite (Split_cut _ _ _ Hv). cbn [determineAcceptMimeType_loop].
    rewrite Hf. reflexivity.
  - intros H. rewrite (Split_whole _ _ H). cbn [determineAcceptMimeType_loop].
    destruct (acceptedFormat _); reflexivity.
Qed.

End NegotiationFacts.

Lemma determineAcceptMimeType_first_witness :
  determineAcceptMimeType bare_media_type "image/png,image/webp" = "png" /\
  determineAcceptMimeType bare_media_type "text/html,image/avif" =
    determineAcceptMimeType bare_media_type "image/avif".
Proof.
  split.
  - apply (proj1 (proj2 (determineAcceptMimeType_first bare_media_type
             "image/png,image/webp")) "image/png" "image/webp"); reflexivity.
  - apply (proj1 (proj2 (proj2 (determineAcceptMimeType_first bare_media_type
             "text/html,image/avif"))) "text/html" "image/avif"); reflexivity.
Defined.
